(** * cluster-api-provider-openstack: security-group rule tables,
      availability zones and instance network status

    A shallow embedding of
    - [pkg/cloud/services/networking]: the security-group rule generators,
    - [pkg/cloud/services/compute/availabilityzone.go]: [GetAvailabilityZones],
    - [pkg/cloud/services/compute]: the network status accessors exercised by
      [TestNetworkStatus_Addresses] and [TestInstanceNetworkStatus].

    Go [string] is [string], Go [int] is [Z], a slice is a [list], a Go map
    keyed by strings is a [gmap string _]. *)

From stdpp Require Import base numbers list strings gmap fin_maps sorting.

Local Open Scope Z_scope.
Local Open Scope string_scope.
Local Open Scope list_scope.

(** ** Security-group rules *)

Module Rules.

(** Modelled from the spec: the struct declaration
    [infrav1.SecurityGroupRule] (api/v1alpha6) is not among the sources.  The
    record has the fields the rule tables set ("direction (ingress/egress),
    ether type (IPv4/IPv6), port range, protocol, and either a remote IP prefix
    or a remote security-group reference"); a field a literal leaves out takes
    Go's zero value, the empty string or 0. *)
Record SecurityGroupRule := mkRule {
  Description : string;
  Direction : string;
  EtherType : string;
  PortRangeMin : Z;
  PortRangeMax : Z;
  Protocol : string;
  RemoteGroupID : string;
  RemoteIPPrefix : string
}.

Definition defaultRules : list SecurityGroupRule :=
  [ {| Direction := "egress"; Description := "Full open"; EtherType := "IPv4";
       PortRangeMin := 0; PortRangeMax := 0; Protocol := "";
       RemoteIPPrefix := ""; RemoteGroupID := "" |};
    {| Direction := "egress"; Description := "Full open"; EtherType := "IPv6";
       PortRangeMin := 0; PortRangeMax := 0; Protocol := "";
       RemoteIPPrefix := ""; RemoteGroupID := "" |} ].

(** Permit traffic for etcd, kubelet. *)
Definition getSGControlPlaneCommon (remoteGroupIDSelf secWorkerGroupID : string)
  : list SecurityGroupRule :=
  [ {| Description := "Etcd"; Direction := "ingress"; EtherType := "IPv4";
       PortRangeMin := 2379; PortRangeMax := 2380; Protocol := "tcp";
       RemoteGroupID := remoteGroupIDSelf; RemoteIPPrefix := "" |};
    {| Description := "Kubelet API"; Direction := "ingress"; EtherType := "IPv4";
       PortRangeMin := 10250; PortRangeMax := 10250; Protocol := "tcp";
       RemoteGroupID := remoteGroupIDSelf; RemoteIPPrefix := "" |};
    {| Description := "Kubelet API"; Direction := "ingress"; EtherType := "IPv4";
       PortRangeMin := 10250; PortRangeMax := 10250; Protocol := "tcp";
       RemoteGroupID := secWorkerGroupID; RemoteIPPrefix := "" |} ].

(** Permit traffic for calico. *)
Definition getSGControlPlaneCalico (remoteGroupIDSelf secWorkerGroupID : string)
  : list SecurityGroupRule :=
  [ {| Description := "BGP (calico)"; Direction := "ingress"; EtherType := "IPv4";
       PortRangeMin := 179; PortRangeMax := 179; Protocol := "tcp";
       RemoteGroupID := remoteGroupIDSelf; RemoteIPPrefix := "" |};
    {| Description := "BGP (calico)"; Direction := "ingress"; EtherType := "IPv4";
       PortRangeMin := 179; PortRangeMax := 179; Protocol := "tcp";
       RemoteGroupID := secWorkerGroupID; RemoteIPPrefix := "" |};
    {| Description := "IP-in-IP (calico)"; Direction := "ingress"; EtherType := "IPv4";
       PortRangeMin := 0; PortRangeMax := 0; Protocol := "ipip";
       RemoteGroupID := remoteGroupIDSelf; RemoteIPPrefix := "" |};
    {| Description := "IP-in-IP (calico)"; Direction := "ingress"; EtherType := "IPv4";
       PortRangeMin := 0; PortRangeMax := 0; Protocol := "ipip";
       RemoteGroupID := secWorkerGroupID; RemoteIPPrefix := "" |} ].

(** Permit traffic for cilium. *)
Definition getSGControlPlaneCilium (remoteGroupIDSelf secWorkerGroupID : string)
  : list SecurityGroupRule :=
  [ {| Description := "HealthChecks (cilium)"; Direction := "ingress"; EtherType := "IPv4";
       PortRangeMin := 4240; PortRangeMax := 4240; Protocol := "tcp";
       RemoteGroupID := remoteGroupIDSelf; RemoteIPPrefix := "" |};
    {| Description := "HealthChecks (cilium)"; Direction := "ingress"; EtherType := "IPv4";
       PortRangeMin := 4240; PortRangeMax := 4240; Protocol := "tcp";
       RemoteGroupID := secWorkerGroupID; RemoteIPPrefix := "" |};
    {| Description := "VXLAN (cilium)"; Direction := "ingress"; EtherType := "IPv4";
       PortRangeMin := 8472; PortRangeMax := 8472; Protocol := "udp";
       RemoteGroupID := remoteGroupIDSelf; RemoteIPPrefix := "" |};
    {| Description := "VXLAN (cilium)"; Direction := "ingress"; EtherType := "IPv4";
       PortRangeMin := 8472; PortRangeMax := 8472; Protocol := "udp";
       RemoteGroupID := secWorkerGroupID; RemoteIPPrefix := "" |};
    {| Description := "ICMP HealthCheck (cilium)"; Direction := "ingress"; EtherType := "IPv4";
       PortRangeMin := 8; PortRangeMax := 0; Protocol := "icmp";
       RemoteGroupID := remoteGroupIDSelf; RemoteIPPrefix := "" |};
    {| Description := "ICMP HealthCheck (cilium)"; Direction := "ingress"; EtherType := "IPv4";
       PortRangeMin := 8; PortRangeMax := 0; Protocol := "icmp";
       RemoteGroupID := secWorkerGroupID; RemoteIPPrefix := "" |} ].

(** Permit traffic for kubelet. *)
Definition getSGWorkerCommon (remoteGroupIDSelf secControlPlaneGroupID : string)
  : list SecurityGroupRule :=
  [ {| Description := "Kubelet API"; Direction := "ingress"; EtherType := "IPv4";
       PortRangeMin := 10250; PortRangeMax := 10250; Protocol := "tcp";
       RemoteGroupID := remoteGroupIDSelf; RemoteIPPrefix := "" |};
    {| Description := "Kubelet API"; Direction := "ingress"; EtherType := "IPv4";
       PortRangeMin := 10250; PortRangeMax := 10250; Protocol := "tcp";
       RemoteGroupID := secControlPlaneGroupID; RemoteIPPrefix := "" |} ].

(** Permit traffic for calico. *)
Definition getSGWorkerCalico (remoteGroupIDSelf secControlPlaneGroupID : string)
  : list SecurityGroupRule :=
  [ {| Description := "BGP (calico)"; Direction := "ingress"; EtherType := "IPv4";
       PortRangeMin := 179; PortRangeMax := 179; Protocol := "tcp";
       RemoteGroupID := remoteGroupIDSelf; RemoteIPPrefix := "" |};
    {| Description := "BGP (calico)"; Direction := "ingress"; EtherType := "IPv4";
       PortRangeMin := 179; PortRangeMax := 179; Protocol := "tcp";
       RemoteGroupID := secControlPlaneGroupID; RemoteIPPrefix := "" |};
    {| Description := "IP-in-IP (calico)"; Direction := "ingress"; EtherType := "IPv4";
       PortRangeMin := 0; PortRangeMax := 0; Protocol := "ipip";
       RemoteGroupID := remoteGroupIDSelf; RemoteIPPrefix := "" |};
    {| Description := "IP-in-IP (calico)"; Direction := "ingress"; EtherType := "IPv4";
       PortRangeMin := 0; PortRangeMax := 0; Protocol := "ipip";
       RemoteGroupID := secControlPlaneGroupID; RemoteIPPrefix := "" |} ].

(** Permit traffic for cilium. *)
Definition getSGWorkerCilium (remoteGroupIDSelf secControlPlaneGroupID : string)
  : list SecurityGroupRule :=
  [ {| Description := "HealthChecks (cilium)"; Direction := "ingress"; EtherType := "IPv4";
       PortRangeMin := 4240; PortRangeMax := 4240; Protocol := "tcp";
       RemoteGroupID := remoteGroupIDSelf; RemoteIPPrefix := "" |};
    {| Description := "HealthChecks (cilium)"; Direction := "ingress"; EtherType := "IPv4";
       PortRangeMin := 4240; PortRangeMax := 4240; Protocol := "tcp";
       RemoteGroupID := secControlPlaneGroupID; RemoteIPPrefix := "" |};
    {| Description := "VXLAN (cilium)"; Direction := "ingress"; EtherType := "IPv4";
       PortRangeMin := 8472; PortRangeMax := 8472; Protocol := "udp";
       RemoteGroupID := remoteGroupIDSelf; RemoteIPPrefix := "" |};
    {| Description := "VXLAN (cilium)"; Direction := "ingress"; EtherType := "IPv4";
       PortRangeMin := 8472; PortRangeMax := 8472; Protocol := "udp";
       RemoteGroupID := secControlPlaneGroupID; RemoteIPPrefix := "" |};
    {| Description := "ICMP HealthCheck (cilium)"; Direction := "ingress"; EtherType := "IPv4";
       PortRangeMin := 8; PortRangeMax := 0; Protocol := "icmp";
       RemoteGroupID := remoteGroupIDSelf; RemoteIPPrefix := "" |};
    {| Description := "ICMP HealthCheck (cilium)"; Direction := "ingress"; EtherType := "IPv4";
       PortRangeMin := 8; PortRangeMax := 0; Protocol := "icmp";
       RemoteGroupID := secControlPlaneGroupID; RemoteIPPrefix := "" |} ].

(** Permit traffic for ssh control plane. *)
Definition GetSGControlPlaneSSH (secBastionGroupID : string) : list SecurityGroupRule :=
  [ {| Description := "SSH"; Direction := "ingress"; EtherType := "IPv4";
       PortRangeMin := 22; PortRangeMax := 22; Protocol := "tcp";
       RemoteGroupID := secBastionGroupID; RemoteIPPrefix := "" |} ].

(** Permit traffic for ssh worker. *)
Definition GetSGWorkerSSH (secBastionGroupID : string) : list SecurityGroupRule :=
  [ {| Description := "SSH"; Direction := "ingress"; EtherType := "IPv4";
       PortRangeMin := 22; PortRangeMax := 22; Protocol := "tcp";
       RemoteGroupID := secBastionGroupID; RemoteIPPrefix := "" |} ].

(** Allow all traffic, including from outside the cluster, to access the API.
    The Go function takes no argument. *)
Definition GetSGControlPlaneHTTPS : list SecurityGroupRule :=
  [ {| Description := "Kubernetes API"; Direction := "ingress"; EtherType := "IPv4";
       PortRangeMin := 6443; PortRangeMax := 6443; Protocol := "tcp";
       RemoteGroupID := ""; RemoteIPPrefix := "" |} ].

(** Allow all traffic, including from outside the cluster, to access node port
    services.  The Go function takes no argument. *)
Definition GetSGWorkerNodePort : list SecurityGroupRule :=
  [ {| Description := "Node Port Services"; Direction := "ingress"; EtherType := "IPv4";
       PortRangeMin := 30000; PortRangeMax := 32767; Protocol := "tcp";
       RemoteGroupID := ""; RemoteIPPrefix := "" |} ].

(** Permit all ingress from the cluster security groups. *)
Definition GetSGControlPlaneAllowAll (remoteGroupIDSelf secWorkerGroupID : string)
  : list SecurityGroupRule :=
  [ {| Description := "In-cluster Ingress"; Direction := "ingress"; EtherType := "IPv4";
       PortRangeMin := 0; PortRangeMax := 0; Protocol := "";
       RemoteGroupID := remoteGroupIDSelf; RemoteIPPrefix := "" |};
    {| Description := "In-cluster Ingress"; Direction := "ingress"; EtherType := "IPv4";
       PortRangeMin := 0; PortRangeMax := 0; Protocol := "";
       RemoteGroupID := secWorkerGroupID; RemoteIPPrefix := "" |} ].

(** Permit all ingress from the cluster security groups. *)
Definition GetSGWorkerAllowAll (remoteGroupIDSelf secControlPlaneGroupID : string)
  : list SecurityGroupRule :=
  [ {| Description := "In-cluster Ingress"; Direction := "ingress"; EtherType := "IPv4";
       PortRangeMin := 0; PortRangeMax := 0; Protocol := "";
       RemoteGroupID := remoteGroupIDSelf; RemoteIPPrefix := "" |};
    {| Description := "In-cluster Ingress"; Direction := "ingress"; EtherType := "IPv4";
       PortRangeMin := 0; PortRangeMax := 0; Protocol := "";
       RemoteGroupID := secControlPlaneGroupID; RemoteIPPrefix := "" |} ].

(** Go's [append(s, t...)] on slices; every slice appended to below is a
    fresh one, so no backing array is shared. *)
Definition append {A} (s t : list A) : list A := s ++ t.

Definition GetSGControlPlaneGeneral (remoteGroupIDSelf secWorkerGroupID : string)
  : list SecurityGroupRule :=
  let controlPlaneRules := [] in
  let controlPlaneRules :=
    append controlPlaneRules (getSGControlPlaneCommon remoteGroupIDSelf secWorkerGroupID) in
  let controlPlaneRules :=
    append controlPlaneRules (getSGControlPlaneCalico remoteGroupIDSelf secWorkerGroupID) in
  let controlPlaneRules :=
    append controlPlaneRules (getSGControlPlaneCilium remoteGroupIDSelf secWorkerGroupID) in
  controlPlaneRules.

Definition GetSGWorkerGeneral (remoteGroupIDSelf secControlPlaneGroupID : string)
  : list SecurityGroupRule :=
  let workerRules := [] in
  let workerRules :=
    append workerRules (getSGWorkerCommon remoteGroupIDSelf secControlPlaneGroupID) in
  let workerRules :=
    append workerRules (getSGWorkerCalico remoteGroupIDSelf secControlPlaneGroupID) in
  let workerRules :=
    append workerRules (getSGWorkerCilium remoteGroupIDSelf secControlPlaneGroupID) in
  workerRules.

(** Every generator of the package, applied to a self and a peer identifier
    (the SSH generators take one identifier, the HTTPS and node-port
    generators none). *)
Definition generators (a b : string) : list (list SecurityGroupRule) :=
  [ getSGControlPlaneCommon a b; getSGControlPlaneCalico a b;
    getSGControlPlaneCilium a b; getSGWorkerCommon a b; getSGWorkerCalico a b;
    getSGWorkerCilium a b; GetSGControlPlaneSSH a; GetSGWorkerSSH a;
    GetSGControlPlaneHTTPS; GetSGWorkerNodePort;
    GetSGControlPlaneAllowAll a b; GetSGWorkerAllowAll a b;
    GetSGControlPlaneGeneral a b; GetSGWorkerGeneral a b ].

(** *** Predicates on rules and slices *)

(** A rule that lets traffic in over IPv4. *)
Definition ingress_ipv4 (r : SecurityGroupRule) : Prop :=
  Direction r = "ingress" ∧ EtherType r = "IPv4".

#[global] Instance ingress_ipv4_dec r : Decision (ingress_ipv4 r).
Proof. unfold ingress_ipv4. apply _. Defined.

(** Two slices equal element for element, in the same order. *)
Definition same_slice {A} (s t : list A) : Prop :=
  length s = length t ∧ ∀ i : nat, s !! i = t !! i.

(** The rules of a Cilium generator, by protocol. *)
Definition cilium_ports_ok (r : SecurityGroupRule) : Prop :=
  (Protocol r = "icmp" → PortRangeMin r = 8 ∧ PortRangeMax r = 0
                         ∧ PortRangeMax r < PortRangeMin r)
  ∧ (Protocol r = "tcp" ∨ Protocol r = "udp" → PortRangeMin r = PortRangeMax r).

(** *** Reading a rule set *)

(** The port interval of a rule of protocol [proto] contains [port]. *)
Definition covers (proto : string) (port : Z) (r : SecurityGroupRule) : Prop :=
  Protocol r = proto ∧ (PortRangeMin r ≤ port ≤ PortRangeMax r)%Z.

(** Some rule of [rules] lets the members of [group] in on [port] of [proto]. *)
Definition open_to (rules : list SecurityGroupRule) (group proto : string) (port : Z)
  : Prop :=
  Exists (λ r, RemoteGroupID r = group ∧ covers proto port r) rules.

(** A rule that names no source: neither a remote group nor a prefix. *)
Definition any_source (r : SecurityGroupRule) : Prop :=
  RemoteGroupID r = "" ∧ RemoteIPPrefix r = "".

(** A rule whose source is one of the two groups, and no prefix. *)
Definition from_groups (a b : string) (r : SecurityGroupRule) : Prop :=
  (RemoteGroupID r = a ∨ RemoteGroupID r = b) ∧ RemoteIPPrefix r = "".

(** The port fields of a rule are in keeping with its protocol: a proper
    interval of TCP or UDP ports, whatever ICMP carries there, or nothing for
    a protocol without ports. *)
Definition ports_well_formed (r : SecurityGroupRule) : Prop :=
  (Protocol r = "tcp" ∨ Protocol r = "udp")
    ∧ (1 ≤ PortRangeMin r ≤ PortRangeMax r)%Z ∧ (PortRangeMax r ≤ 65535)%Z
  ∨ Protocol r = "icmp"
  ∨ (Protocol r = "ipip" ∨ Protocol r = "")
    ∧ PortRangeMin r = 0%Z ∧ PortRangeMax r = 0%Z.

#[global] Instance SecurityGroupRule_eq_dec : EqDecision SecurityGroupRule.
Proof. solve_decision. Defined.

End Rules.

(** ** The rule generators on Go's heap *)

(** The same generators with the slices of Go: a call builds its slice in
    fresh memory or hands out memory that exists already, and [append] writes
    in place when the backing array has room.  What a call returns may then
    depend on the heap it runs in; the functions above give the elements
    only. *)

Module Heap.

Import Rules.

(** The heap: the backing arrays of the slices, by address.  The package
    variable [defaultRules] and the results of earlier calls live here. *)
Abbreviation heap := (gmap nat (list SecurityGroupRule)).

(** A slice value: its backing array and its length.  No slice of this
    package is resliced, so a slice starts at its array's first element and
    its capacity is the array's length. *)
Record slice := { array : nat; len : nat }.

(** The zero value of the rule struct, which fills spare capacity. *)
Definition zeroRule : SecurityGroupRule :=
  {| Description := ""; Direction := ""; EtherType := ""; PortRangeMin := 0;
     PortRangeMax := 0; Protocol := ""; RemoteGroupID := ""; RemoteIPPrefix := "" |}.

Definition backing (s : slice) (h : heap) : list SecurityGroupRule :=
  default [] (h !! array s).

Definition cap (s : slice) (h : heap) : nat := length (backing s h).

(** The elements of a slice, as a caller reads them. *)
Definition elements (s : slice) (h : heap) : list SecurityGroupRule :=
  take (len s) (backing s h).

(** A computation on the heap. *)
Definition M (A : Type) : Type := heap → A * heap.

Definition ret {A} (x : A) : M A := λ h, (x, h).

Definition bind {A B} (m : M A) (k : A → M B) : M B :=
  λ h, let '(x, h') := m h in k x h'.

(** The composite literal [[]T{x1, ..., xn}]: a new array of exactly these
    elements, at an address not in use. *)
Definition literal (xs : list SecurityGroupRule) : M slice :=
  λ h, let a := fresh (dom h) in
       ({| array := a; len := length xs |}, <[a := xs]> h).

(** [append(s, xs...)]: with room in the backing array of [s] the elements
    are written in place after the first [len s] and the array is shared with
    [s]; without room a new array takes the elements of [s] and then [xs].
    How much spare capacity the new array gets is the runtime's choice,
    [grow old needed]. *)
Definition append (grow : nat → nat → nat) (s : slice) (xs : list SecurityGroupRule)
  : M slice :=
  λ h, let old := backing s h in
       let n := (len s + length xs)%nat in
       if decide (n ≤ length old)%nat
       then ({| array := array s; len := n |},
             <[array s := take (len s) old ++ xs ++ drop n old]> h)
       else let a := fresh (dom h) in
            ({| array := a; len := n |},
             <[a := take (len s) old ++ xs ++ replicate (grow (length old) n) zeroRule]> h).

(** [append(s, t...)] for a slice [t]: its elements are read when the call
    is made. *)
Definition appendSlice (grow : nat → nat → nat) (s t : slice) : M slice :=
  λ h, append grow s (elements t h) h.

Definition getSGControlPlaneCommon (remoteGroupIDSelf secWorkerGroupID : string) : M slice :=
  literal (Rules.getSGControlPlaneCommon remoteGroupIDSelf secWorkerGroupID).

Definition getSGControlPlaneCalico (remoteGroupIDSelf secWorkerGroupID : string) : M slice :=
  literal (Rules.getSGControlPlaneCalico remoteGroupIDSelf secWorkerGroupID).

Definition getSGControlPlaneCilium (remoteGroupIDSelf secWorkerGroupID : string) : M slice :=
  literal (Rules.getSGControlPlaneCilium remoteGroupIDSelf secWorkerGroupID).

Definition getSGWorkerCommon (remoteGroupIDSelf secControlPlaneGroupID : string) : M slice :=
  literal (Rules.getSGWorkerCommon remoteGroupIDSelf secControlPlaneGroupID).

Definition getSGWorkerCalico (remoteGroupIDSelf secControlPlaneGroupID : string) : M slice :=
  literal (Rules.getSGWorkerCalico remoteGroupIDSelf secControlPlaneGroupID).

Definition getSGWorkerCilium (remoteGroupIDSelf secControlPlaneGroupID : string) : M slice :=
  literal (Rules.getSGWorkerCilium remoteGroupIDSelf secControlPlaneGroupID).

Definition GetSGControlPlaneSSH (secBastionGroupID : string) : M slice :=
  literal (Rules.GetSGControlPlaneSSH secBastionGroupID).

Definition GetSGWorkerSSH (secBastionGroupID : string) : M slice :=
  literal (Rules.GetSGWorkerSSH secBastionGroupID).

Definition GetSGControlPlaneHTTPS : M slice := literal Rules.GetSGControlPlaneHTTPS.

Definition GetSGWorkerNodePort : M slice := literal Rules.GetSGWorkerNodePort.

Definition GetSGControlPlaneAllowAll (remoteGroupIDSelf secWorkerGroupID : string) : M slice :=
  literal (Rules.GetSGControlPlaneAllowAll remoteGroupIDSelf secWorkerGroupID).

Definition GetSGWorkerAllowAll (remoteGroupIDSelf secControlPlaneGroupID : string) : M slice :=
  literal (Rules.GetSGWorkerAllowAll remoteGroupIDSelf secControlPlaneGroupID).

Definition GetSGControlPlaneGeneral (grow : nat → nat → nat)
    (remoteGroupIDSelf secWorkerGroupID : string) : M slice :=
  bind (literal []) (λ controlPlaneRules,
  bind (getSGControlPlaneCommon remoteGroupIDSelf secWorkerGroupID) (λ common,
  bind (appendSlice grow controlPlaneRules common) (λ controlPlaneRules,
  bind (getSGControlPlaneCalico remoteGroupIDSelf secWorkerGroupID) (λ calico,
  bind (appendSlice grow controlPlaneRules calico) (λ controlPlaneRules,
  bind (getSGControlPlaneCilium remoteGroupIDSelf secWorkerGroupID) (λ cilium,
  bind (appendSlice grow controlPlaneRules cilium) (λ controlPlaneRules,
  ret controlPlaneRules))))))).

Definition GetSGWorkerGeneral (grow : nat → nat → nat)
    (remoteGroupIDSelf secControlPlaneGroupID : string) : M slice :=
  bind (literal []) (λ workerRules,
  bind (getSGWorkerCommon remoteGroupIDSelf secControlPlaneGroupID) (λ common,
  bind (appendSlice grow workerRules common) (λ workerRules,
  bind (getSGWorkerCalico remoteGroupIDSelf secControlPlaneGroupID) (λ calico,
  bind (appendSlice grow workerRules calico) (λ workerRules,
  bind (getSGWorkerCilium remoteGroupIDSelf secControlPlaneGroupID) (λ cilium,
  bind (appendSlice grow workerRules cilium) (λ workerRules,
  ret workerRules))))))).

(** *** What a call may and may not do *)

(** The elements of the slice that [m] returns when run in [h]. *)
Definition returned (m : M slice) (h : heap) : list SecurityGroupRule :=
  elements (fst (m h)) (snd (m h)).

(** Run in [h], [m] returns a slice with the elements [xs], in an array that
    [h] did not have, and leaves every array of [h] as it was. *)
Definition returns_fresh (m : M slice) (h : heap) (xs : list SecurityGroupRule) : Prop :=
  returned m h = xs ∧ (array (fst (m h)) ∉ dom h) ∧ (h ⊆ snd (m h)).

(** Two calls that return the same elements whatever heaps they run in. *)
Definition agree (m m' : M slice) : Prop :=
  ∀ h h' : heap, same_slice (returned m h) (returned m' h').

(** A function that would hand out a slice the package keeps, such as the
    variable [defaultRules], at the address [a]: what it returns is what the
    heap holds there. *)
Definition handOut (a : nat) (n : nat) : M slice := ret {| array := a; len := n |}.

(** The slice [s] is the call's own: the heap [h] extends the heap [h0] that
    the call started in, and the array of [s] is allocated, has room for the
    elements of [s] and was not there in [h0]. *)
Definition owned (h0 : heap) (s : slice) (h : heap) : Prop :=
  (h0 ⊆ h) ∧ (array s ∉ dom h0) ∧ (array s ∈ dom h) ∧ (len s ≤ cap s h)%nat.

End Heap.

(** ** Availability zones *)

Module AvailabilityZones.

(** A Go [error] value, as far as this code observes it: the message that
    its [Error()] method (and so the [%v] verb) yields. *)
Record error := errorString { Error : string }.

(** [fmt.Errorf(format, err)] for a format [prefix ++ "%v"]: a new error whose
    message is the prefix followed by the message of [err]. *)
Definition Errorf_v (prefix : string) (err : error) : error :=
  errorString (prefix +:+ Error err).

Section Service.

(** [availabilityzones.AvailabilityZone] belongs to the SDK. *)
Variable AvailabilityZone : Type.

(** A Go slice that may be [nil]: [None] is [nil]. *)
Definition slice := option (list AvailabilityZone).

(** What one call of the SDK's [ListAvailabilityZones] hands back: the list
    and the error, [None] for a [nil] error. *)
Definition sdkResult := (slice * option error)%type.

(** A computation over the compute client [s.computeService]: it returns, or
    calls [ListAvailabilityZones] and goes on with what the call handed back. *)
Inductive Client (R : Type) : Type :=
| Return (r : R)
| ListAvailabilityZones (k : sdkResult -> Client R).
Arguments Return {R} r.
Arguments ListAvailabilityZones {R} k.

(** Runs a computation against a client whose [n]-th call (from 0) answers
    [responses n]; yields the result and the number of calls made so far. *)
Fixpoint run {R} (p : Client R) (responses : nat -> sdkResult) (n : nat) : R * nat :=
  match p with
  | Return r => (r, n)
  | ListAvailabilityZones k => run (k (responses n)) responses (S n)
  end.

Definition GetAvailabilityZones : Client (slice * option error) :=
  ListAvailabilityZones (fun '(availabilityZoneList, err) =>
    match err with
    | Some err =>
        Return (None, Some (Errorf_v "error extracting availability zone list: " err))
    | None => Return (availabilityZoneList, None)
    end).

End Service.

Arguments Return {AvailabilityZone R} r.
Arguments ListAvailabilityZones {AvailabilityZone R} k.
Arguments run {AvailabilityZone R} p responses n.
Arguments GetAvailabilityZones {AvailabilityZone}.

(** The text of an error of [GetAvailabilityZones] after its context. *)
Definition context : string := "error extracting availability zone list: ".

Definition after_context (err : error) : string :=
  String.substring (String.length context)
                   (String.length (Error err) - String.length context)%nat (Error err).

End AvailabilityZones.

(** ** Instance network status *)

Module NetworkStatus.

(** An address structure as generated by OpenStack ([networkAddress] of the
    tests).  The Go field [Type] is written [Type_]. *)
Record networkAddress := {
  Version : Z;
  Addr : string;
  Type_ : string;
  MacAddr : string
}.

(** [corev1.NodeAddressType] is a string type in the Kubernetes API. *)
Definition NodeAddressType := string.
Definition NodeInternalIP : NodeAddressType := "InternalIP".
Definition NodeExternalIP : NodeAddressType := "ExternalIP".

(** [corev1.NodeAddress]; its Go field [Type] is written [Type']. *)
Record NodeAddress := {
  Type' : NodeAddressType;
  Address : string
}.

#[global] Instance networkAddress_eq_dec : EqDecision networkAddress.
Proof. solve_decision. Defined.

#[global] Instance NodeAddress_eq_dec : EqDecision NodeAddress.
Proof. solve_decision. Defined.

(** The part of [ServerExt] the status reads: the address lists by network
    name.  The Go map holds them as [interface{}] values. *)
Record ServerExt := { Addresses_ : gmap string (list networkAddress) }.

(** A Go [range] over a map visits every entry once, in an order the language
    leaves open: [order] is one such enumeration of [m]. *)
Definition range_of (m : gmap string (list networkAddress))
    (order : list (string * list networkAddress)) : Prop :=
  order ≡ₚ map_to_list m.

(** [serverWithAddresses], with the enumeration its [range] loop follows:
    starting from an empty map, [server.Addresses[network] = addressList] for
    each entry in turn. *)
Definition serverWithAddresses (order : list (string * list networkAddress)) : ServerExt :=
  {| Addresses_ :=
       foldl (fun acc '(network, addressList) => <[network := addressList]> acc) ∅ order |}.

(** [InstanceStatus] without its logger. *)
Record InstanceStatus := { server : ServerExt }.

(** Modelled from the spec: the network status type that
    [InstanceStatus.NetworkStatus()] returns is not among the sources; it is
    a "read-only view over a raw address map". *)
Record InstanceNetworkStatus := { addresses : gmap string (list networkAddress) }.

(** Modelled from the spec: [InstanceStatus.NetworkStatus()] is not among the
    sources.  It gives the view over the server's address map; the error it
    also returns is [nil] in every test and the spec names no failing case, so
    it is left out. *)
Definition NetworkStatus (instance : InstanceStatus) : InstanceNetworkStatus :=
  {| addresses := Addresses_ (server instance) |}.

(** The entries a typed accessor looks for: IPv4 and of the wanted type. *)
Definition wanted (addressType : string) (address : networkAddress) : Prop :=
  Version address = 4 ∧ Type_ address = addressType.

#[global] Instance wanted_dec addressType address : Decision (wanted addressType address).
Proof. unfold wanted. apply _. Defined.

(** Modelled from the spec: the scan behind the typed accessors, which is not
    among the sources: "scan its address list in original order; return the
    first IPv4 entry tagged" with the wanted type; "entries of any other type
    or IP version are ignored", and nothing found "yields empty results". *)
Fixpoint firstAddressByType (addressType : string) (addressList : list networkAddress)
  : string :=
  match addressList with
  | [] => ""
  | address :: rest =>
      if decide (wanted addressType address)
      then Addr address
      else firstAddressByType addressType rest
  end.

(** Modelled from the spec: the lookup of a network by name, not among the
    sources: "absent network name yields empty results". *)
Definition firstAddressByNetworkAndType (ns : InstanceNetworkStatus)
    (networkName addressType : string) : string :=
  match addresses ns !! networkName with
  | Some addressList => firstAddressByType addressType addressList
  | None => ""
  end.

(** Modelled from the spec: the accessor [IP], not among the sources: "the
    first IPv4 entry tagged "fixed" as the internal IP". *)
Definition IP (ns : InstanceNetworkStatus) (networkName : string) : string :=
  firstAddressByNetworkAndType ns networkName "fixed".

(** Modelled from the spec: the accessor [FloatingIP], not among the sources:
    "the first tagged "floating" as the external IP". *)
Definition FloatingIP (ns : InstanceNetworkStatus) (networkName : string) : string :=
  firstAddressByNetworkAndType ns networkName "floating".

(** Go compares strings byte by byte; [sort.Strings] orders with it. *)
Definition string_le (s1 s2 : string) : Prop := Is_true (String.leb s1 s2).

#[global] Instance string_le_dec (s1 s2 : string) : Decision (string_le s1 s2) :=
  Is_true_dec (String.leb s1 s2).

(** Modelled from the spec: how one entry's type tag becomes a node-address
    type, not among the sources.  The node addresses produced are of "the
    Kubernetes core API address type enum (InternalIP/ExternalIP)": "fixed" is
    internal, "floating" is external, and a tag that is neither has no
    node-address type. *)
Definition nodeAddressType (tag : string) : option NodeAddressType :=
  if decide (tag = "fixed") then Some NodeInternalIP
  else if decide (tag = "floating") then Some NodeExternalIP
  else None.

(** Modelled from the spec: the node addresses of one network's list, not
    among the sources: the routine "buckets entries into internal/external IP
    by a type tag", "IPv6 entries are excluded from the mapped output" and
    "entries of any other type or IP version are ignored" (the test with such
    entries is named "Ignore unknown address type"): an entry that is not IPv4,
    or whose tag has no node-address type, gives no node address. *)
Fixpoint nodeAddresses (addressList : list networkAddress) : list NodeAddress :=
  match addressList with
  | [] => []
  | address :: rest =>
      if decide (Version address = 4)
      then match nodeAddressType (Type_ address) with
           | Some addressType =>
               {| Type' := addressType; Address := Addr address |} :: nodeAddresses rest
           | None => nodeAddresses rest
           end
      else nodeAddresses rest
  end.

(** The network names of the view in lexical order. *)
Definition networks (ns : InstanceNetworkStatus) : list string :=
  merge_sort string_le (map_to_list (addresses ns)).*1.

(** Modelled from the spec: [Addresses()], the "flattened address list", is
    not among the sources.  [TestNetworkStatus_Addresses] compares it with an
    exact ordered list in which "extraNet1" and "extraNet2" come before
    "primary": the networks are taken in the lexical order of their names, each
    with its addresses in list order. *)
Definition Addresses (ns : InstanceNetworkStatus) : list NodeAddress :=
  flat_map (fun network => nodeAddresses (default [] (addresses ns !! network)))
           (networks ns).

(** *** Predicates on address lists *)

(** [result] is the address of the first wanted entry of [addressList], the
    entries before it being passed over, and empty when there is none. *)
Definition first_match (addressType : string) (addressList : list networkAddress)
    (result : string) : Prop :=
  (∀ before address after,
      addressList = before ++ address :: after →
      Forall (λ skipped, ¬ wanted addressType skipped) before →
      wanted addressType address →
      result = Addr address)
  ∧ (Forall (λ skipped, ¬ wanted addressType skipped) addressList → result = "").

(** An entry whose type tag is one of the two recognised ones. *)
Definition known_type (address : networkAddress) : Prop :=
  Type_ address = "fixed" ∨ Type_ address = "floating".

#[global] Instance known_type_dec address : Decision (known_type address).
Proof. unfold known_type. apply _. Defined.

(** The view with every entry of an unrecognised type taken out. *)
Definition without_unknown (ns : InstanceNetworkStatus) : InstanceNetworkStatus :=
  {| addresses := filter known_type <$> addresses ns |}.

(** *** The tables of the tests *)

(** Some arbitrary MAC addresses. *)
Definition macAddr1 := "d1:b2:18:25:70:ab".
Definition macAddr2 := "d1:b2:18:25:70:ac".
Definition macAddr3 := "d1:b2:18:25:70:ad".
Definition macAddr4 := "d1:b2:18:25:70:ae".

Definition addr (version : Z) (a type mac : string) : networkAddress :=
  {| Version := version; Addr := a; Type_ := type; MacAddr := mac |}.

(** The address maps of [TestNetworkStatus_Addresses] and
    [TestInstanceNetworkStatus], each as the entries of its map literal. *)
Definition single_network_single_address : list (string * list networkAddress) :=
  [ ("primary", [ addr 4 "192.168.0.1" "fixed" macAddr1 ]) ].

Definition fixed_and_floating : list (string * list networkAddress) :=
  [ ("primary", [ addr 4 "192.168.0.1" "fixed" macAddr1;
                  addr 4 "10.0.0.1" "floating" macAddr2 ]) ].

Definition ignore_ipv6_addresses : list (string * list networkAddress) :=
  [ ("primary", [ addr 6 "fe80::f816:3eff:fe56:3174" "fixed" macAddr1;
                  addr 6 "fe80::f816:3eff:fe56:3175" "floating" macAddr2;
                  addr 4 "192.168.0.1" "fixed" macAddr3 ]) ].

Definition ignore_ipv6_status : list (string * list networkAddress) :=
  [ ("primary", [ addr 6 "fe80::f816:3eff:fe56:3174" "fixed" macAddr1;
                  addr 6 "fe80::f816:3eff:fe56:3175" "floating" macAddr2;
                  addr 4 "10.0.0.1" "floating" macAddr3;
                  addr 4 "192.168.0.1" "fixed" macAddr4 ]) ].

Definition ignore_unknown_address_type : list (string * list networkAddress) :=
  [ ("primary", [ addr 4 "192.168.0.2" "not-valid" macAddr1;
                  addr 4 "192.168.0.3" "unknown" macAddr2;
                  addr 4 "10.0.0.1" "floating" macAddr3;
                  addr 4 "192.168.0.1" "fixed" macAddr4 ]) ].

Definition multiple_networks : list (string * list networkAddress) :=
  [ ("primary", [ addr 4 "192.168.0.1" "fixed" macAddr1;
                  addr 4 "10.0.0.1" "floating" macAddr2 ]);
    ("extraNet1", [ addr 4 "192.168.1.1" "fixed" macAddr3 ]);
    ("extraNet2", [ addr 4 "192.168.2.1" "fixed" macAddr4 ]) ].

Definition first_ip : list (string * list networkAddress) :=
  [ ("primary", [ addr 4 "192.168.0.1" "fixed" macAddr1;
                  addr 4 "10.0.0.1" "floating" macAddr2;
                  addr 4 "192.168.0.2" "fixed" macAddr3;
                  addr 4 "10.0.0.2" "floating" macAddr4 ]) ].

Definition network_not_found : list (string * list networkAddress) :=
  [ ("extraNet1", [ addr 4 "192.168.1.1" "fixed" macAddr1;
                    addr 4 "10.0.1.1" "floating" macAddr2 ]) ].

(** A network with IPv6 entries only. *)
Definition only_ipv6 : list (string * list networkAddress) :=
  [ ("primary", [ addr 6 "fe80::f816:3eff:fe56:3174" "fixed" macAddr1;
                  addr 6 "fe80::f816:3eff:fe56:3175" "floating" macAddr2 ]) ].

(** A network whose only entry is IPv6 and of an unrecognised type. *)
Definition unknown_ipv6 : list (string * list networkAddress) :=
  [ ("primary", [ addr 6 "fe80::f816:3eff:fe56:3174" "unknown" macAddr1 ]) ].

(** The node addresses a test expects. *)
Definition internal (a : string) : NodeAddress := {| Type' := NodeInternalIP; Address := a |}.
Definition external (a : string) : NodeAddress := {| Type' := NodeExternalIP; Address := a |}.

(** [na] is the node address of the entry [a]: internal for an IPv4 entry
    tagged "fixed", external for one tagged "floating"; no other entry has
    one. *)
Definition node_address_of (a : networkAddress) (na : NodeAddress) : Prop :=
  Version a = 4
  ∧ (Type_ a = "fixed" ∧ na = internal (Addr a)
     ∨ Type_ a = "floating" ∧ na = external (Addr a)).

(** What a test does with its table: the status of the server built from it. *)
Definition status_of (table : list (string * list networkAddress)) : InstanceNetworkStatus :=
  NetworkStatus {| server := serverWithAddresses table |}.

End NetworkStatus.

(** * Properties of the rule generators *)

Section RuleProperties.

Import Rules.

Lemma same_slice_eq {A} (s t : list A) : same_slice s t ↔ s = t.
Proof.
  split.
  - intros [_ Hi]. by apply list_eq.
  - intros ->. by split.
Qed.

Ltac rule_list :=
  repeat match goal with
         | |- Forall _ (_ :: _) => constructor
         | |- Forall _ [] => constructor
         end.

(** C5: for every self and peer identifier, the general control-plane rule set
    is the common control-plane group followed by the Calico and then the
    Cilium group for those identifiers, and the general worker rule set is the
    common worker group followed by the Calico and the Cilium worker groups;
    both are functions of the two identifiers alone. *)
Theorem GetSGGeneral_composition (remoteGroupIDSelf peerGroupID : string) :
  GetSGControlPlaneGeneral remoteGroupIDSelf peerGroupID
    = getSGControlPlaneCommon remoteGroupIDSelf peerGroupID
        ++ getSGControlPlaneCalico remoteGroupIDSelf peerGroupID
        ++ getSGControlPlaneCilium remoteGroupIDSelf peerGroupID
  ∧ GetSGWorkerGeneral remoteGroupIDSelf peerGroupID
    = getSGWorkerCommon remoteGroupIDSelf peerGroupID
        ++ getSGWorkerCalico remoteGroupIDSelf peerGroupID
        ++ getSGWorkerCilium remoteGroupIDSelf peerGroupID
  ∧ Description <$> getSGControlPlaneCommon remoteGroupIDSelf peerGroupID
    = ["Etcd"; "Kubelet API"; "Kubelet API"]
  ∧ Description <$> getSGWorkerCommon remoteGroupIDSelf peerGroupID
    = ["Kubelet API"; "Kubelet API"].
Proof.
  unfold GetSGControlPlaneGeneral, GetSGWorkerGeneral, append.
  repeat split; cbn [app]; by rewrite <- ?app_assoc.
Qed.

(** *** The generators on the heap *)

Lemma bind_run {A B} (m : Heap.M A) (k : A → Heap.M B) (h : Heap.heap) :
  Heap.bind m k h = k (fst (m h)) (snd (m h)).
Proof. unfold Heap.bind. by destruct (m h). Qed.

(** A literal is built in memory of its own. *)
Lemma literal_owned (h0 h : Heap.heap) xs :
  h0 ⊆ h →
  Heap.owned h0 (fst (Heap.literal xs h)) (snd (Heap.literal xs h))
  ∧ Heap.elements (fst (Heap.literal xs h)) (snd (Heap.literal xs h)) = xs.
Proof.
  intros Hsub. unfold Heap.owned, Heap.elements, Heap.cap, Heap.backing, Heap.literal.
  cbn. pose proof (is_fresh (dom h)) as Hfresh.
  rewrite lookup_insert_eq. cbn. repeat split.
  - etrans; [exact Hsub|]. apply insert_subseteq. by apply not_elem_of_dom.
  - intros Hin. apply Hfresh. by apply (subseteq_dom h0 h).
  - rewrite dom_insert. set_solver.
  - done.
  - by rewrite take_ge.
Qed.

(** Building a literal leaves the slices there are as they were. *)
Lemma literal_keeps (h0 h : Heap.heap) s xs :
  Heap.owned h0 s h →
  Heap.owned h0 s (snd (Heap.literal xs h))
  ∧ Heap.elements s (snd (Heap.literal xs h)) = Heap.elements s h.
Proof.
  intros (Hsub & Hnew & Hin & Hlen).
  unfold Heap.owned, Heap.elements, Heap.cap, Heap.backing, Heap.literal in *. cbn.
  pose proof (is_fresh (dom h)) as Hfresh.
  assert (Hne : fresh (dom h) ≠ Heap.array s) by (intros Heq; by rewrite Heq in Hfresh).
  rewrite lookup_insert_ne by done. repeat split; try done.
  - etrans; [exact Hsub|]. apply insert_subseteq. by apply not_elem_of_dom.
  - rewrite dom_insert. set_solver.
Qed.

(** Appending to a slice of the call's own gives a slice of its own with the
    elements of both, in place or not. *)
Lemma append_owned (grow : nat → nat → nat) (h0 h : Heap.heap) s xs :
  Heap.owned h0 s h →
  Heap.owned h0 (fst (Heap.append grow s xs h)) (snd (Heap.append grow s xs h))
  ∧ Heap.elements (fst (Heap.append grow s xs h)) (snd (Heap.append grow s xs h))
    = Heap.elements s h ++ xs.
Proof.
  intros (Hsub & Hnew & Hin & Hlen).
  unfold Heap.owned, Heap.elements, Heap.cap, Heap.append in *.
  unfold Heap.backing in *.
  set (old := default [] (h !! Heap.array s)) in *.
  destruct (decide (Heap.len s + length xs ≤ length old)%nat) as [Hroom|Hfull]; cbn.
  - rewrite lookup_insert_eq. cbn. repeat split.
    + apply insert_subseteq_r; [|done]. by apply not_elem_of_dom.
    + done.
    + rewrite dom_insert. set_solver.
    + rewrite !length_app, length_take, length_drop. lia.
    + rewrite app_assoc, take_app_length'; [done|].
      rewrite length_app, length_take. lia.
  - pose proof (is_fresh (dom h)) as Hfresh.
    rewrite lookup_insert_eq. cbn. repeat split.
    + etrans; [exact Hsub|]. apply insert_subseteq. by apply not_elem_of_dom.
    + intros Hin0. apply Hfresh. by apply (subseteq_dom h0 h).
    + rewrite dom_insert. set_solver.
    + rewrite !length_app, length_take, length_replicate. lia.
    + rewrite app_assoc, take_app_length'; [done|].
      rewrite length_app, length_take. lia.
Qed.

Lemma appendSlice_owned (grow : nat → nat → nat) (h0 h : Heap.heap) s t :
  Heap.owned h0 s h →
  Heap.owned h0 (fst (Heap.appendSlice grow s t h)) (snd (Heap.appendSlice grow s t h))
  ∧ Heap.elements (fst (Heap.appendSlice grow s t h)) (snd (Heap.appendSlice grow s t h))
    = Heap.elements s h ++ Heap.elements t h.
Proof. apply append_owned. Qed.

Lemma owned_returns_fresh (m : Heap.M Heap.slice) (h : Heap.heap) xs :
  Heap.owned h (fst (m h)) (snd (m h)) →
  Heap.elements (fst (m h)) (snd (m h)) = xs →
  Heap.returns_fresh m h xs.
Proof. intros (Hsub & Hnew & _ & _) Hxs. by repeat split. Qed.

Lemma literal_returns_fresh (h : Heap.heap) xs : Heap.returns_fresh (Heap.literal xs) h xs.
Proof.
  destruct (literal_owned h h xs) as [Ho He]; [done|].
  by apply owned_returns_fresh.
Qed.

(** One round of a general generator: a group is built and appended. *)
Lemma group_appended (grow : nat → nat → nat) (h0 h : Heap.heap) s group :
  Heap.owned h0 s h →
  let h1 := snd (Heap.literal group h) in
  let t := fst (Heap.literal group h) in
  Heap.owned h0 (fst (Heap.appendSlice grow s t h1)) (snd (Heap.appendSlice grow s t h1))
  ∧ Heap.elements (fst (Heap.appendSlice grow s t h1)) (snd (Heap.appendSlice grow s t h1))
    = Heap.elements s h ++ group.
Proof.
  intros Ho h1 t.
  destruct (literal_keeps h0 h s group Ho) as [Ho1 He1].
  destruct (literal_owned h h group) as [_ Het]; [done|].
  destruct (appendSlice_owned grow h0 h1 s t Ho1) as [Ho2 He2].
  split; [done|]. rewrite He2. subst h1 t. by rewrite He1, Het.
Qed.

Lemma three_groups_returns_fresh (grow : nat → nat → nat) (h : Heap.heap) g1 g2 g3 :
  Heap.returns_fresh
    (Heap.bind (Heap.literal []) (λ r,
     Heap.bind (Heap.literal g1) (λ c1,
     Heap.bind (Heap.appendSlice grow r c1) (λ r,
     Heap.bind (Heap.literal g2) (λ c2,
     Heap.bind (Heap.appendSlice grow r c2) (λ r,
     Heap.bind (Heap.literal g3) (λ c3,
     Heap.bind (Heap.appendSlice grow r c3) (λ r,
     Heap.ret r))))))))
    h (g1 ++ g2 ++ g3).
Proof.
  destruct (literal_owned h h []) as [Ho0 He0]; [done|].
  destruct (group_appended grow h _ _ g1 Ho0) as [Ho1 He1].
  destruct (group_appended grow h _ _ g2 Ho1) as [Ho2 He2].
  destruct (group_appended grow h _ _ g3 Ho2) as [Ho3 He3].
  apply owned_returns_fresh; rewrite !bind_run; unfold Heap.ret; cbn [fst snd].
  - exact Ho3.
  - rewrite He3, He2, He1, He0. cbn [app]. by rewrite <- app_assoc.
Qed.

(** Every generator builds its result in memory of its own, whatever the heap
    holds and however [append] grows an array: the elements are those of the
    rule tables, and nothing that was on the heap is written. *)
Lemma generators_return_fresh (grow : nat → nat → nat) (h : Heap.heap)
    (self peer bastion : string) :
  Heap.returns_fresh (Heap.GetSGControlPlaneGeneral grow self peer) h
    (GetSGControlPlaneGeneral self peer)
  ∧ Heap.returns_fresh (Heap.GetSGWorkerGeneral grow self peer) h
      (GetSGWorkerGeneral self peer)
  ∧ Heap.returns_fresh (Heap.GetSGControlPlaneSSH bastion) h (GetSGControlPlaneSSH bastion)
  ∧ Heap.returns_fresh (Heap.GetSGWorkerSSH bastion) h (GetSGWorkerSSH bastion)
  ∧ Heap.returns_fresh Heap.GetSGControlPlaneHTTPS h GetSGControlPlaneHTTPS
  ∧ Heap.returns_fresh Heap.GetSGWorkerNodePort h GetSGWorkerNodePort
  ∧ Heap.returns_fresh (Heap.GetSGControlPlaneAllowAll self peer) h
      (GetSGControlPlaneAllowAll self peer)
  ∧ Heap.returns_fresh (Heap.GetSGWorkerAllowAll self peer) h
      (GetSGWorkerAllowAll self peer).
Proof.
  split; [|split; [|split; [|split; [|split; [|split; [|split]]]]]].
  - exact (three_groups_returns_fresh grow h (getSGControlPlaneCommon self peer)
             (getSGControlPlaneCalico self peer) (getSGControlPlaneCilium self peer)).
  - exact (three_groups_returns_fresh grow h (getSGWorkerCommon self peer)
             (getSGWorkerCalico self peer) (getSGWorkerCilium self peer)).
  - exact (literal_returns_fresh h _).
  - exact (literal_returns_fresh h _).
  - exact (literal_returns_fresh h _).
  - exact (literal_returns_fresh h _).
  - exact (literal_returns_fresh h _).
  - exact (literal_returns_fresh h _).
Qed.

Lemma returns_fresh_agree (m m' : Heap.M Heap.slice) xs :
  (∀ h, Heap.returns_fresh m h xs) → (∀ h, Heap.returns_fresh m' h xs) →
  Heap.agree m m'.
Proof.
  intros Hm Hm' h h'. apply same_slice_eq.
  destruct (Hm h) as [-> _]. by destruct (Hm' h') as [-> _].
Qed.

(** C6: every exported rule-set generator is deterministic.  Two calls with
    identical arguments, run in any two heaps (whatever earlier calls and
    their callers left there, the package's own variables included) and with
    any growth of arrays by [append], return slices of the same length whose
    elements agree at every index. *)
Theorem generators_deterministic (self peer bastion : string)
    (grow grow' : nat → nat → nat) :
  Heap.agree (Heap.GetSGControlPlaneGeneral grow self peer)
             (Heap.GetSGControlPlaneGeneral grow' self peer)
  ∧ Heap.agree (Heap.GetSGWorkerGeneral grow self peer)
               (Heap.GetSGWorkerGeneral grow' self peer)
  ∧ Heap.agree (Heap.GetSGControlPlaneSSH bastion) (Heap.GetSGControlPlaneSSH bastion)
  ∧ Heap.agree (Heap.GetSGWorkerSSH bastion) (Heap.GetSGWorkerSSH bastion)
  ∧ Heap.agree Heap.GetSGControlPlaneHTTPS Heap.GetSGControlPlaneHTTPS
  ∧ Heap.agree Heap.GetSGWorkerNodePort Heap.GetSGWorkerNodePort
  ∧ Heap.agree (Heap.GetSGControlPlaneAllowAll self peer)
               (Heap.GetSGControlPlaneAllowAll self peer)
  ∧ Heap.agree (Heap.GetSGWorkerAllowAll self peer)
               (Heap.GetSGWorkerAllowAll self peer).
Proof.
  split; [|split; [|split; [|split; [|split; [|split; [|split]]]]]].
  - apply (returns_fresh_agree _ _ (GetSGControlPlaneGeneral self peer));
      intros h; [apply (generators_return_fresh grow h self peer bastion)
                |apply (generators_return_fresh grow' h self peer bastion)].
  - apply (returns_fresh_agree _ _ (GetSGWorkerGeneral self peer));
      intros h; [apply (generators_return_fresh grow h self peer bastion)
                |apply (generators_return_fresh grow' h self peer bastion)].
  - apply (returns_fresh_agree _ _ (GetSGControlPlaneSSH bastion));
      intros h; apply (generators_return_fresh grow h self peer bastion).
  - apply (returns_fresh_agree _ _ (GetSGWorkerSSH bastion));
      intros h; apply (generators_return_fresh grow h self peer bastion).
  - apply (returns_fresh_agree _ _ GetSGControlPlaneHTTPS);
      intros h; apply (generators_return_fresh grow h self peer bastion).
  - apply (returns_fresh_agree _ _ GetSGWorkerNodePort);
      intros h; apply (generators_return_fresh grow h self peer bastion).
  - apply (returns_fresh_agree _ _ (GetSGControlPlaneAllowAll self peer));
      intros h; apply (generators_return_fresh grow h self peer bastion).
  - apply (returns_fresh_agree _ _ (GetSGWorkerAllowAll self peer));
      intros h; apply (generators_return_fresh grow h self peer bastion).
Qed.

(** Not every function on the heap is deterministic in this sense: one that
    hands out a slice the package keeps returns whatever a caller has written
    there. *)
Lemma handOut_not_deterministic (a : nat) :
  ¬ Heap.agree (Heap.handOut a 1) (Heap.handOut a 1).
Proof.
  intros Hagree.
  destruct (Hagree {[ a := defaultRules ]} {[ a := [Heap.zeroRule] ]}) as [_ Hi].
  specialize (Hi 0%nat). revert Hi.
  unfold Heap.returned, Heap.handOut, Heap.ret, Heap.elements, Heap.backing. cbn.
  rewrite !lookup_singleton_eq. cbn. discriminate.
Qed.

(** Nor is [append] harmless on a slice that is shared: with room in the
    array, the elements appended are written into memory that the other
    holders of the array see. *)
Lemma append_in_place_is_seen (grow : nat → nat → nat) (a : nat) r :
  snd (Heap.append grow {| Heap.array := a; Heap.len := 0 |} [r]
         {[ a := [Heap.zeroRule] ]}) !! a = Some [r].
Proof.
  unfold Heap.append, Heap.backing. cbn. rewrite lookup_singleton_eq. cbn.
  rewrite decide_True by lia. cbn. by rewrite lookup_insert_eq.
Qed.

(** C8: whatever the string arguments, every rule of every generator is an
    ingress rule for IPv4, so no rule with direction "egress" or ether type
    "IPv6" is among them; the static table [defaultRules] holds egress rules
    only, one of them for IPv6. *)
Theorem generators_ingress_ipv4 (a b : string) :
  Forall (Forall ingress_ipv4) (generators a b)
  ∧ (∀ r rules, rules ∈ generators a b → r ∈ rules →
       Direction r ≠ "egress" ∧ EtherType r ≠ "IPv6")
  ∧ Forall (λ r, Direction r = "egress") defaultRules
  ∧ Exists (λ r, EtherType r = "IPv6") defaultRules.
Proof.
  assert (Hall : Forall (Forall ingress_ipv4) (generators a b)).
  { cbv -[ingress_ipv4]. rule_list; by split. }
  split; [done|]. split; [|split].
  - intros r rules Hrules Hr.
    rewrite Forall_forall in Hall. specialize (Hall _ Hrules).
    rewrite Forall_forall in Hall. destruct (Hall _ Hr) as [Hd He].
    rewrite Hd, He. by split.
  - unfold defaultRules. by rule_list.
  - unfold defaultRules. apply Exists_cons_tl, Exists_cons_hd. done.
Qed.

(** C9: the control-plane and the worker generator of Calico return the same
    rules for the same pair of identifiers, so do those of Cilium, and the two
    SSH generators return the same rule for the same identifier. *)
Theorem control_plane_worker_coincide (a b x : string) :
  getSGControlPlaneCalico a b = getSGWorkerCalico a b
  ∧ getSGControlPlaneCilium a b = getSGWorkerCilium a b
  ∧ GetSGControlPlaneSSH x = GetSGWorkerSSH x.
Proof. by repeat split. Qed.

(** C10: in the rules of both Cilium generators, a rule with protocol "icmp"
    has [PortRangeMin] 8 and [PortRangeMax] 0, so its minimum exceeds its
    maximum, and a rule with protocol "tcp" or "udp" has equal minimum and
    maximum; rules of each of the three protocols do occur. *)
Theorem cilium_port_ranges (a b : string) :
  Forall cilium_ports_ok (getSGControlPlaneCilium a b)
  ∧ Forall cilium_ports_ok (getSGWorkerCilium a b)
  ∧ Protocol <$> getSGControlPlaneCilium a b = ["tcp"; "tcp"; "udp"; "udp"; "icmp"; "icmp"]
  ∧ Protocol <$> getSGWorkerCilium a b = ["tcp"; "tcp"; "udp"; "udp"; "icmp"; "icmp"].
Proof.
  unfold getSGControlPlaneCilium, getSGWorkerCilium, cilium_ports_ok.
  repeat split; rule_list; cbn; (split; [intros ?|intros [?|?]]); try done.
Qed.

End RuleProperties.

(** * Properties of [GetAvailabilityZones] *)

Section AvailabilityZoneProperties.

Import AvailabilityZones.

Context {AvailabilityZone : Type}.

(** However the client answers, [GetAvailabilityZones] hands the client's
    first answer over to its continuation and calls nothing else. *)
Lemma GetAvailabilityZones_calls_once (responses : nat → sdkResult AvailabilityZone) (n : nat) :
  snd (run GetAvailabilityZones responses n) = S n.
Proof.
  cbn. destruct (responses n) as [zones [err|]]; reflexivity.
Qed.

(** C7: when the SDK's [ListAvailabilityZones] answers the call with a list
    and no error, [GetAvailabilityZones] returns that list unchanged and no
    error; when it answers with an error, [GetAvailabilityZones] returns a nil
    list and an error whose message is "error extracting availability zone
    list: " followed by the SDK error's message.  In both cases the SDK is
    called exactly once: later answers of the client are never asked for. *)
Theorem GetAvailabilityZones_spec
    (responses : nat → sdkResult AvailabilityZone) (zones : slice AvailabilityZone)
    (sdkErr : option error) :
  responses 0%nat = (zones, sdkErr) →
  run GetAvailabilityZones responses 0
  = (match sdkErr with
     | None => (zones, None)
     | Some err =>
         (None,
          Some (errorString
                  ("error extracting availability zone list: " +:+ Error err)))
     end, 1%nat).
Proof.
  intros Hfirst. cbn. rewrite Hfirst. destruct sdkErr as [err|]; reflexivity.
Qed.

(** The answers after the first one do not matter. *)
Lemma GetAvailabilityZones_first_answer_only (r1 r2 : nat → sdkResult AvailabilityZone) :
  r1 0%nat = r2 0%nat →
  run GetAvailabilityZones r1 0 = run GetAvailabilityZones r2 0.
Proof.
  intros H. cbn. rewrite H. destruct (r2 0%nat) as [zones [err|]]; reflexivity.
Qed.

End AvailabilityZoneProperties.

(** A client that fails first and would succeed on a second call: the
    failure is reported with its context, and the second call is not made. *)
Lemma GetAvailabilityZones_spec_witness :
  AvailabilityZones.run AvailabilityZones.GetAvailabilityZones
    (λ n, match n with
          | O => (Some ["nova"], Some (AvailabilityZones.errorString "connection refused"))
          | _ => (Some ["nova"], None)
          end) 0
  = ((None,
      Some (AvailabilityZones.errorString
              "error extracting availability zone list: connection refused")),
     1%nat).
Proof.
  exact (GetAvailabilityZones_spec
           (λ n, match n with
                 | O => (Some ["nova"],
                         Some (AvailabilityZones.errorString "connection refused"))
                 | _ => (Some ["nova"], None)
                 end)
           (Some ["nova"])
           (Some (AvailabilityZones.errorString "connection refused"))
           eq_refl).
Defined.

(** A client that succeeds: the list comes back as it is. *)
Example GetAvailabilityZones_success :
  AvailabilityZones.run AvailabilityZones.GetAvailabilityZones
    (λ _, (Some ["nova"; "az2"], None)) 0
  = ((Some ["nova"; "az2"], None), 1%nat).
Proof. reflexivity. Qed.

(** * Properties of the instance network status *)

Section NetworkStatusProperties.

Import NetworkStatus.

(** ** The lexical order of network names *)

Lemma string_compare_trans (s1 s2 s3 : string) :
  String.compare s1 s2 ≠ Gt → String.compare s2 s3 ≠ Gt → String.compare s1 s3 ≠ Gt.
Proof.
  revert s2 s3. induction s1 as [|c1 s1 IH]; intros [|c2 s2] [|c3 s3]; cbn; try done.
  unfold Ascii.compare.
  destruct (N.compare_spec (Ascii.N_of_ascii c1) (Ascii.N_of_ascii c2)) as [E12|L12|G12];
    destruct (N.compare_spec (Ascii.N_of_ascii c2) (Ascii.N_of_ascii c3)) as [E23|L23|G23];
    destruct (N.compare_spec (Ascii.N_of_ascii c1) (Ascii.N_of_ascii c3)) as [E13|L13|G13];
    try done; try lia.
  apply IH.
Qed.

#[local] Instance string_le_trans : Transitive string_le.
Proof.
  intros s1 s2 s3. unfold string_le, String.leb. intros H12 H23.
  pose proof (string_compare_trans s1 s2 s3) as Ht.
  destruct (String.compare s1 s2), (String.compare s2 s3), (String.compare s1 s3);
    cbn in *; try done; exfalso; by apply Ht.
Qed.

#[local] Instance string_le_total : Total string_le.
Proof.
  intros s1 s2. unfold string_le.
  destruct (String.leb_total s1 s2) as [H|H]; rewrite H; [by left | by right].
Qed.

#[local] Instance string_le_antisymm : AntiSymm (=) string_le.
Proof.
  intros s1 s2 H1 H2. apply String.leb_antisym; by apply Is_true_true.
Qed.

Lemma networks_sorted ns : StronglySorted string_le (networks ns).
Proof. apply StronglySorted_merge_sort; apply _. Qed.

Lemma networks_elem_of ns network :
  network ∈ networks ns ↔ is_Some (addresses ns !! network).
Proof.
  unfold networks. rewrite merge_sort_Permutation.
  rewrite list_elem_of_fmap. split.
  - intros [[k l] [-> Hkl]]. apply elem_of_map_to_list in Hkl. by exists l.
  - intros [l Hl]. exists (network, l). split; [done|]. by apply elem_of_map_to_list.
Qed.

(** In a sorted list of names, a name strictly below another stands before it. *)
Lemma sorted_split_before (names : list string) (x y : string) :
  StronglySorted string_le names → x ∈ names → y ∈ names →
  string_le x y → x ≠ y →
  ∃ k1 k2 k3, names = k1 ++ x :: k2 ++ y :: k3.
Proof.
  intros Hsorted Hx Hy Hxy Hne.
  apply list_elem_of_split in Hy as (a & b & ->).
  apply elem_of_app in Hx as [Hx|Hx].
  - apply list_elem_of_split in Hx as (k1 & k2 & ->).
    exists k1, k2, b. by rewrite <- app_assoc.
  - apply elem_of_cons in Hx as [->|Hx]; [done|].
    apply StronglySorted_app_1_r in Hsorted.
    apply StronglySorted_cons in Hsorted as [Hall _].
    rewrite Forall_forall in Hall.
    destruct Hne. by apply (anti_symm string_le); [|apply Hall].
Qed.

(** ** The scan of one address list *)

Lemma firstAddressByType_skip tag before rest :
  Forall (λ skipped, ¬ wanted tag skipped) before →
  firstAddressByType tag (before ++ rest) = firstAddressByType tag rest.
Proof.
  induction 1 as [|a before Ha _ IH]; [done|].
  cbn. by rewrite decide_False.
Qed.

Lemma firstAddressByType_first_match tag addressList :
  first_match tag addressList (firstAddressByType tag addressList).
Proof.
  split.
  - intros before a after -> Hskip Ha.
    rewrite firstAddressByType_skip by done.
    cbn. by rewrite decide_True.
  - intros Hnone. rewrite <- (app_nil_r addressList).
    by rewrite firstAddressByType_skip.
Qed.

Lemma firstAddressByType_head_filter tag addressList :
  firstAddressByType tag addressList
  = default "" (Addr <$> head (filter (wanted tag) addressList)).
Proof.
  induction addressList as [|a l IH]; [done|].
  rewrite filter_cons. cbn.
  destruct (decide (wanted tag a)); [done|]. apply IH.
Qed.

Lemma firstAddressByType_known tag addressList :
  tag = "fixed" ∨ tag = "floating" →
  firstAddressByType tag (filter known_type addressList)
  = firstAddressByType tag addressList.
Proof.
  intros Htag. induction addressList as [|a l IH]; [done|].
  rewrite filter_cons. destruct (decide (known_type a)) as [Hk|Hk].
  - cbn. by rewrite IH.
  - rewrite IH. cbn. rewrite decide_False; [done|].
    intros [_ Ha]. apply Hk. unfold known_type. rewrite Ha. done.
Qed.

Lemma firstAddressByType_from_wanted tag addressList :
  firstAddressByType tag addressList ≠ "" →
  ∃ a, a ∈ addressList ∧ wanted tag a ∧ firstAddressByType tag addressList = Addr a.
Proof.
  induction addressList as [|a l IH]; [done|]. cbn.
  destruct (decide (wanted tag a)) as [Ha|Ha].
  - intros _. exists a. split; [apply elem_of_cons; by left | done].
  - intros Hne. destruct (IH Hne) as (b & Hb & Hw & Heq).
    exists b. split; [apply elem_of_cons; by right | done].
Qed.

(** ** The map a test builds *)

Lemma foldl_insert_list_to_map (order : list (string * list networkAddress))
    (acc : gmap string (list networkAddress)) :
  foldl (λ acc '(network, addressList), <[network := addressList]> acc) acc order
  = foldr (λ p, <[p.1 := p.2]>) acc (reverse order).
Proof.
  revert acc. induction order as [|[k v] order IH]; intros acc; [done|].
  cbn [foldl]. rewrite IH, reverse_cons, foldr_app. done.
Qed.

Lemma serverWithAddresses_range m order :
  range_of m order → Addresses_ (serverWithAddresses order) = m.
Proof.
  unfold range_of. intros Hperm. cbn.
  rewrite foldl_insert_list_to_map.
  change (list_to_map (reverse order) = m).
  transitivity (list_to_map (map_to_list m) : gmap string (list networkAddress));
    [|apply list_to_map_to_list].
  apply list_to_map_proper.
  - rewrite reverse_Permutation, Hperm. apply NoDup_fst_map_to_list.
  - by rewrite reverse_Permutation.
Qed.

Lemma status_of_range m order :
  range_of m order → status_of order = {| addresses := m |}.
Proof.
  intros H. unfold status_of, NetworkStatus. cbn [server].
  f_equal. by apply serverWithAddresses_range.
Qed.

(** ** The typed accessors *)

(** C1: for every view and every network name: when the name is in the map,
    [IP] returns the address of the first entry of that network's list that is
    IPv4 and of type "fixed", and [FloatingIP] that of the first entry that is
    IPv4 and of type "floating", the entries before it (of another type or
    another IP version) being passed over, and the empty string when the list
    has no such entry; when the name is not in the map, both return the empty
    string. *)
Theorem typed_accessors_first_match (ns : InstanceNetworkStatus) (networkName : string) :
  (∀ addressList, addresses ns !! networkName = Some addressList →
     first_match "fixed" addressList (IP ns networkName)
     ∧ first_match "floating" addressList (FloatingIP ns networkName))
  ∧ (addresses ns !! networkName = None →
     IP ns networkName = "" ∧ FloatingIP ns networkName = "").
Proof.
  unfold IP, FloatingIP, firstAddressByNetworkAndType. split.
  - intros addressList ->. split; apply firstAddressByType_first_match.
  - by intros ->.
Qed.

(** ** The flattened list *)

Section Flattened.

Lemma nodeAddresses_no_ipv4 addressList :
  Forall (λ a, Version a ≠ 4) addressList →
  nodeAddresses addressList = [].
Proof.
  induction 1 as [|a l Ha _ IH]; [done|]. cbn. by rewrite decide_False.
Qed.

(** What one entry adds to the node addresses of its list. *)
Lemma nodeAddresses_cons_cases a l :
  (Version a = 4 ∧ Type_ a = "fixed"
   ∧ nodeAddresses (a :: l) = internal (Addr a) :: nodeAddresses l)
  ∨ (Version a = 4 ∧ Type_ a = "floating"
     ∧ nodeAddresses (a :: l) = external (Addr a) :: nodeAddresses l)
  ∨ ((Version a ≠ 4 ∨ ¬ known_type a) ∧ nodeAddresses (a :: l) = nodeAddresses l).
Proof.
  cbn. unfold nodeAddressType, known_type.
  destruct (decide (Version a = 4)) as [Hv|Hv]; [|right; right; auto].
  destruct (decide (Type_ a = "fixed")) as [Hf|Hf]; [left; auto|].
  destruct (decide (Type_ a = "floating")) as [Hfl|Hfl]; [right; left; auto|].
  right; right. split; [right; intros [?|?]; done | done].
Qed.

Lemma nodeAddresses_elem_of addressList na :
  na ∈ nodeAddresses addressList ↔ ∃ a, a ∈ addressList ∧ node_address_of a na.
Proof.
  induction addressList as [|a l IH].
  - cbn. split; [by intros ?%elem_of_nil | by intros (? & ?%elem_of_nil & _)].
  - assert (Hex : (∃ b, b ∈ a :: l ∧ node_address_of b na)
                  ↔ node_address_of a na ∨ ∃ b, b ∈ l ∧ node_address_of b na).
    { split.
      - intros (b & [->|Hb]%elem_of_cons & Hna); [by left | right; by exists b].
      - intros [Hna|(b & Hb & Hna)];
          [exists a | exists b]; (split; [apply elem_of_cons; auto | done]). }
    rewrite Hex, <- IH. unfold node_address_of.
    destruct (nodeAddresses_cons_cases a l)
      as [(Hv & Ht & ->)|[(Hv & Ht & ->)|(Hno & ->)]].
    + rewrite elem_of_cons, Ht. split.
      * intros [->|?]; [left; split; [done|by left] | by right].
      * intros [(_ & [[_ ->]|[? _]])|?]; [by left | done | by right].
    + rewrite elem_of_cons, Ht. split.
      * intros [->|?]; [left; split; [done|by right] | by right].
      * intros [(_ & [[? _]|[_ ->]])|?]; [done | by left | by right].
    + split; [by right|].
      intros [(Hv & Hk)|?]; [|done].
      destruct Hno as [?|Hno]; [done|]. destruct Hno.
      unfold known_type. destruct Hk as [[? _]|[? _]]; auto.
Qed.

Lemma nodeAddresses_known addressList :
  nodeAddresses (filter known_type addressList) = nodeAddresses addressList.
Proof.
  induction addressList as [|a l IH]; [done|].
  rewrite filter_cons. destruct (decide (known_type a)) as [Hk|Hk].
  - cbn. by rewrite IH.
  - rewrite IH. cbn. destruct (decide (Version a = 4)); [|done].
    unfold nodeAddressType.
    rewrite !decide_False; [done| |]; intros ?; apply Hk; [by right | by left].
Qed.

Lemma networks_without_unknown ns : networks (without_unknown ns) = networks ns.
Proof.
  apply (Sorted_unique string_le).
  - apply Sorted_merge_sort; apply _.
  - apply Sorted_merge_sort; apply _.
  - unfold networks, without_unknown. cbn [addresses].
    rewrite !merge_sort_Permutation, map_to_list_fmap, <- list_fmap_compose.
    erewrite list_fmap_ext; [reflexivity|]. by intros i [k l] _.
Qed.

Lemma Addresses_elem_of ns na :
  na ∈ Addresses ns
  ↔ ∃ network addressList a,
      addresses ns !! network = Some addressList
      ∧ a ∈ addressList ∧ node_address_of a na.
Proof.
  unfold Addresses. rewrite list_elem_of_In, in_flat_map. split.
  - intros (network & Hnet & Hna).
    apply list_elem_of_In, networks_elem_of in Hnet as [addressList Hl].
    rewrite Hl in Hna. cbn in Hna.
    apply list_elem_of_In, nodeAddresses_elem_of in Hna as (a & Ha & Hna).
    by exists network, addressList, a.
  - intros (network & addressList & a & Hl & Ha & Hna).
    exists network. split.
    + apply list_elem_of_In, networks_elem_of. by exists addressList.
    + rewrite Hl. cbn. apply list_elem_of_In, nodeAddresses_elem_of. by exists a.
Qed.

Lemma flat_map_all_nil {A B} (f : A → list B) (l : list A) :
  (∀ x, x ∈ l → f x = []) → flat_map f l = [].
Proof.
  induction l as [|x l IH]; [done|]. intros H. cbn.
  rewrite (H x) by (apply elem_of_cons; by left).
  cbn. apply IH. intros y Hy. apply H, elem_of_cons. by right.
Qed.

(** C2: when every entry of every network of the address map has IP version
    6, [Addresses()] returns the empty list. *)
Theorem ipv6_only_no_addresses (ns : InstanceNetworkStatus) :
  map_Forall (λ _ addressList, Forall (λ a, Version a = 6) addressList) (addresses ns) →
  Addresses ns = [].
Proof.
  intros Hv6. unfold Addresses. apply flat_map_all_nil. intros network Hnet.
  apply networks_elem_of in Hnet as [addressList Hl]. rewrite Hl. cbn.
  apply nodeAddresses_no_ipv4.
  eapply Forall_impl; [exact (Hv6 _ _ Hl)|]. cbn. intros a ->. done.
Qed.

(** C3, as amended: entries whose type tag is neither "fixed" nor "floating"
    play no part in the typed accessors, nor in the full list.  [IP] and
    [FloatingIP] return what they return on the map with those entries taken
    out, and a non-empty result is the address of an IPv4 entry of the
    accessor's own type; [Addresses()] returns what it returns on the map with
    those entries taken out, and its node addresses are exactly those of the
    IPv4 entries tagged "fixed" (internal) or "floating" (external) of the
    networks of the map: an entry of another tag or another IP version has no
    node address in it. *)
Theorem unknown_types_left_out (ns : InstanceNetworkStatus) (networkName : string) :
  (IP ns networkName = IP (without_unknown ns) networkName
   ∧ FloatingIP ns networkName = FloatingIP (without_unknown ns) networkName)
  ∧ (∀ addressList, addresses ns !! networkName = Some addressList →
       (IP ns networkName ≠ "" →
          ∃ a, a ∈ addressList ∧ wanted "fixed" a ∧ IP ns networkName = Addr a)
       ∧ (FloatingIP ns networkName ≠ "" →
          ∃ a, a ∈ addressList ∧ wanted "floating" a ∧ FloatingIP ns networkName = Addr a))
  ∧ Addresses ns = Addresses (without_unknown ns)
  ∧ (∀ na, na ∈ Addresses ns
           ↔ ∃ network addressList a,
               addresses ns !! network = Some addressList
               ∧ a ∈ addressList ∧ Version a = 4
               ∧ (Type_ a = "fixed" ∧ na = internal (Addr a)
                  ∨ Type_ a = "floating" ∧ na = external (Addr a))).
Proof.
  split; [|split; [|split]].
  - unfold IP, FloatingIP, firstAddressByNetworkAndType, without_unknown. cbn.
    rewrite lookup_fmap. destruct (addresses ns !! networkName) as [l|]; [|done].
    cbn. rewrite !firstAddressByType_known by auto. done.
  - unfold IP, FloatingIP, firstAddressByNetworkAndType. intros addressList ->.
    split; apply firstAddressByType_from_wanted.
  - unfold Addresses. rewrite networks_without_unknown.
    apply flat_map_ext. intros network.
    unfold without_unknown. cbn [addresses]. rewrite lookup_fmap.
    destruct (addresses ns !! network) as [l|]; cbn; [|done].
    by rewrite nodeAddresses_known.
  - intros na. apply Addresses_elem_of.
Qed.

(** C4: in the status of a server built from an address map with a network
    "primary" and a network whose name starts with "extra", whatever order the
    map was enumerated in, the node addresses of the extra network stand
    before those of "primary" in [Addresses()]; and [IP] and [FloatingIP] of
    any network name are the same for any two enumerations of the map. *)
Theorem extra_before_primary_lookup_any_order
    (m : gmap string (list networkAddress)) (suffix networkName : string)
    (extraList primaryList : list networkAddress)
    (order1 order2 : list (string * list networkAddress)) :
  m !! "primary" = Some primaryList →
  m !! ("extra" +:+ suffix) = Some extraList →
  range_of m order1 → range_of m order2 →
  (∃ l1 l2 l3,
     Addresses (status_of order1)
     = l1 ++ nodeAddresses extraList
          ++ l2 ++ nodeAddresses primaryList ++ l3)
  ∧ IP (status_of order1) networkName = IP (status_of order2) networkName
  ∧ FloatingIP (status_of order1) networkName = FloatingIP (status_of order2) networkName.
Proof.
  intros Hprimary Hextra Hr1 Hr2.
  rewrite (status_of_range m order1), (status_of_range m order2) by done.
  split; [|done].
  set (ns := {| addresses := m |}).
  destruct (sorted_split_before (networks ns) ("extra" +:+ suffix) "primary")
    as (k1 & k2 & k3 & Hsplit).
  - apply networks_sorted.
  - apply networks_elem_of. by exists extraList.
  - apply networks_elem_of. by exists primaryList.
  - done.
  - done.
  - unfold Addresses. rewrite Hsplit.
    rewrite flat_map_app. cbn [flat_map]. rewrite flat_map_app. cbn [flat_map].
    subst ns. cbn [addresses]. rewrite Hprimary, Hextra. cbn [default].
    by eexists _, _, _.
Qed.

End Flattened.

End NetworkStatusProperties.

(** ** The cases of the tests *)

Section TestCases.

Import NetworkStatus.

(** [TestNetworkStatus_Addresses]. *)
Example Addresses_single_network_single_address :
  Addresses (status_of single_network_single_address)
  = [internal "192.168.0.1"].
Proof. vm_compute. reflexivity. Qed.

Example Addresses_fixed_and_floating :
  Addresses (status_of fixed_and_floating)
  = [internal "192.168.0.1"; external "10.0.0.1"].
Proof. vm_compute. reflexivity. Qed.

Example Addresses_ignore_ipv6 :
  Addresses (status_of ignore_ipv6_addresses)
  = [internal "192.168.0.1"].
Proof. vm_compute. reflexivity. Qed.

Example Addresses_multiple_networks :
  Addresses (status_of multiple_networks)
  = [internal "192.168.1.1"; internal "192.168.2.1"; internal "192.168.0.1";
     external "10.0.0.1"].
Proof. vm_compute. reflexivity. Qed.

(** [TestInstanceNetworkStatus]: the wanted [IP] and [FloatingIP] of each case. *)
Example InstanceNetworkStatus_cases :
  let got table := (IP (status_of table) "primary", FloatingIP (status_of table) "primary") in
  got single_network_single_address = ("192.168.0.1", "")
  ∧ got fixed_and_floating = ("192.168.0.1", "10.0.0.1")
  ∧ got ignore_ipv6_status = ("192.168.0.1", "10.0.0.1")
  ∧ got ignore_unknown_address_type = ("192.168.0.1", "10.0.0.1")
  ∧ got multiple_networks = ("192.168.0.1", "10.0.0.1")
  ∧ got first_ip = ("192.168.0.1", "10.0.0.1")
  ∧ got network_not_found = ("", "").
Proof. vm_compute. repeat split. Qed.

End TestCases.

(** ** The theorems at the tests' tables *)

Lemma typed_accessors_first_match_witness :
  NetworkStatus.IP (NetworkStatus.status_of NetworkStatus.ignore_unknown_address_type)
    "primary" = "192.168.0.1"
  ∧ NetworkStatus.FloatingIP
      (NetworkStatus.status_of NetworkStatus.ignore_unknown_address_type)
      "primary" = "10.0.0.1"
  ∧ NetworkStatus.IP (NetworkStatus.status_of NetworkStatus.network_not_found)
      "primary" = "".
Proof.
  pose proof (typed_accessors_first_match
                (NetworkStatus.status_of NetworkStatus.ignore_unknown_address_type)
                "primary") as [Hfound _].
  pose proof (typed_accessors_first_match
                (NetworkStatus.status_of NetworkStatus.network_not_found)
                "primary") as [_ Habsent].
  destruct (Hfound _ eq_refl) as [[Hfixed _] [Hfloating _]].
  split; [|split].
  - apply (Hfixed
             [NetworkStatus.addr 4 "192.168.0.2" "not-valid" NetworkStatus.macAddr1;
              NetworkStatus.addr 4 "192.168.0.3" "unknown" NetworkStatus.macAddr2;
              NetworkStatus.addr 4 "10.0.0.1" "floating" NetworkStatus.macAddr3]
             (NetworkStatus.addr 4 "192.168.0.1" "fixed" NetworkStatus.macAddr4)
             []).
    + reflexivity.
    + compute_done.
    + compute_done.
  - apply (Hfloating
             [NetworkStatus.addr 4 "192.168.0.2" "not-valid" NetworkStatus.macAddr1;
              NetworkStatus.addr 4 "192.168.0.3" "unknown" NetworkStatus.macAddr2]
             (NetworkStatus.addr 4 "10.0.0.1" "floating" NetworkStatus.macAddr3)
             [NetworkStatus.addr 4 "192.168.0.1" "fixed" NetworkStatus.macAddr4]).
    + reflexivity.
    + compute_done.
    + compute_done.
  - apply Habsent. reflexivity.
Defined.

Lemma ipv6_only_no_addresses_witness :
  NetworkStatus.Addresses (NetworkStatus.status_of NetworkStatus.only_ipv6) = [].
Proof.
  apply ipv6_only_no_addresses. compute_done.
Defined.

Lemma unknown_types_left_out_witness :
  NetworkStatus.Addresses
    (NetworkStatus.status_of NetworkStatus.ignore_unknown_address_type)
  = NetworkStatus.Addresses
      (NetworkStatus.without_unknown
         (NetworkStatus.status_of NetworkStatus.ignore_unknown_address_type))
  ∧ NetworkStatus.IP (NetworkStatus.status_of NetworkStatus.ignore_unknown_address_type)
      "primary"
    = NetworkStatus.IP
        (NetworkStatus.without_unknown
           (NetworkStatus.status_of NetworkStatus.ignore_unknown_address_type))
        "primary"
  ∧ NetworkStatus.internal "192.168.0.1"
      ∈ NetworkStatus.Addresses
          (NetworkStatus.status_of NetworkStatus.ignore_unknown_address_type).
Proof.
  pose proof (unknown_types_left_out
                (NetworkStatus.status_of NetworkStatus.ignore_unknown_address_type)
                "primary") as [[Hip _] [_ [Hsame Hin]]].
  split; [exact Hsame|]. split; [exact Hip|].
  apply Hin.
  exists "primary",
    [NetworkStatus.addr 4 "192.168.0.2" "not-valid" NetworkStatus.macAddr1;
     NetworkStatus.addr 4 "192.168.0.3" "unknown" NetworkStatus.macAddr2;
     NetworkStatus.addr 4 "10.0.0.1" "floating" NetworkStatus.macAddr3;
     NetworkStatus.addr 4 "192.168.0.1" "fixed" NetworkStatus.macAddr4],
    (NetworkStatus.addr 4 "192.168.0.1" "fixed" NetworkStatus.macAddr4).
  split; [reflexivity|]. split; [compute_done|]. split; [reflexivity|].
  left. split; reflexivity.
Defined.

Lemma extra_before_primary_lookup_any_order_witness :
  (∃ l1 l2 l3,
     NetworkStatus.Addresses
       (NetworkStatus.status_of NetworkStatus.multiple_networks)
     = l1 ++ [ {| NetworkStatus.Type' := "InternalIP";
                  NetworkStatus.Address := "192.168.1.1" |} ]
          ++ l2
          ++ [ {| NetworkStatus.Type' := "InternalIP";
                  NetworkStatus.Address := "192.168.0.1" |};
               {| NetworkStatus.Type' := "ExternalIP";
                  NetworkStatus.Address := "10.0.0.1" |} ]
          ++ l3)
  ∧ NetworkStatus.IP (NetworkStatus.status_of NetworkStatus.multiple_networks) "primary"
    = NetworkStatus.IP
        (NetworkStatus.status_of (reverse NetworkStatus.multiple_networks)) "primary"
  ∧ NetworkStatus.FloatingIP
      (NetworkStatus.status_of NetworkStatus.multiple_networks) "primary"
    = NetworkStatus.FloatingIP
        (NetworkStatus.status_of (reverse NetworkStatus.multiple_networks)) "primary".
Proof.
  apply (extra_before_primary_lookup_any_order
           (list_to_map NetworkStatus.multiple_networks) "Net1" "primary"
           [NetworkStatus.addr 4 "192.168.1.1" "fixed" NetworkStatus.macAddr3]
           [NetworkStatus.addr 4 "192.168.0.1" "fixed" NetworkStatus.macAddr1;
            NetworkStatus.addr 4 "10.0.0.1" "floating" NetworkStatus.macAddr2]
           NetworkStatus.multiple_networks
           (reverse NetworkStatus.multiple_networks)).
  - reflexivity.
  - reflexivity.
  - unfold NetworkStatus.range_of. compute_done.
  - unfold NetworkStatus.range_of. compute_done.
Defined.

(** C3, as stated, fails: the table of the test "Ignore unknown address type"
    has two IPv4 entries of an unrecognised type in its network, and
    [Addresses()] returns the node addresses of the floating and of the fixed
    entry only. *)
Lemma unknown_ipv4_left_out_of_full_list :
  NetworkStatus.addresses
    (NetworkStatus.status_of NetworkStatus.ignore_unknown_address_type) !! "primary"
  = Some [NetworkStatus.addr 4 "192.168.0.2" "not-valid" NetworkStatus.macAddr1;
          NetworkStatus.addr 4 "192.168.0.3" "unknown" NetworkStatus.macAddr2;
          NetworkStatus.addr 4 "10.0.0.1" "floating" NetworkStatus.macAddr3;
          NetworkStatus.addr 4 "192.168.0.1" "fixed" NetworkStatus.macAddr4]
  ∧ ¬ NetworkStatus.known_type
        (NetworkStatus.addr 4 "192.168.0.2" "not-valid" NetworkStatus.macAddr1)
  ∧ NetworkStatus.Addresses
      (NetworkStatus.status_of NetworkStatus.ignore_unknown_address_type)
    = [NetworkStatus.external "10.0.0.1"; NetworkStatus.internal "192.168.0.1"]
  ∧ ∀ na, na ∈ NetworkStatus.Addresses
                 (NetworkStatus.status_of NetworkStatus.ignore_unknown_address_type)
          → NetworkStatus.Address na ≠ "192.168.0.2"
            ∧ NetworkStatus.Address na ≠ "192.168.0.3".
Proof.
  split; [reflexivity|]. split; [compute_done|].
  assert (Hall : NetworkStatus.Addresses
                   (NetworkStatus.status_of NetworkStatus.ignore_unknown_address_type)
                 = [NetworkStatus.external "10.0.0.1"; NetworkStatus.internal "192.168.0.1"])
    by (vm_compute; reflexivity).
  split; [exact Hall|]. rewrite Hall. clear Hall. intros na Hna.
  apply elem_of_cons in Hna as [->|Hna]; [split; discriminate|].
  apply elem_of_cons in Hna as [->|Hna]; [split; discriminate|].
  apply elem_of_nil in Hna. destruct Hna.
Qed.

(** An entry that is not IPv4 is left out of the full list whatever its type. *)
Example unknown_ipv6_left_out_of_full_list :
  NetworkStatus.Addresses (NetworkStatus.status_of NetworkStatus.unknown_ipv6) = [].
Proof. vm_compute. reflexivity. Qed.

(** * Further properties of the rule generators *)

Section RuleSetProperties.

Import Rules.

Ltac exists_rule :=
  repeat match goal with
         | H : Exists _ (_ :: _) |- _ => apply Exists_cons in H as [H|H]
         | H : Exists _ [] |- _ => by apply Exists_nil in H
         end.

Ltac opened_rule H :=
  exists_rule; cbn in H;
  let Hg := fresh in let Hp := fresh in let Hr := fresh in
  destruct H as (Hg & Hp & Hr); try done; subst.

Ltac find_rule :=
  first [ apply Exists_cons_hd; cbn; split; [reflexivity | split; [reflexivity | lia]]
        | apply Exists_cons_tl; find_rule ].

Ltac general_rules :=
  cbv [GetSGControlPlaneGeneral GetSGWorkerGeneral append getSGControlPlaneCommon
       getSGControlPlaneCalico getSGControlPlaneCilium getSGWorkerCommon
       getSGWorkerCalico getSGWorkerCilium GetSGControlPlaneAllowAll
       GetSGWorkerAllowAll GetSGControlPlaneSSH GetSGWorkerSSH
       GetSGControlPlaneHTTPS GetSGWorkerNodePort app].

(** X1: the TCP ports that the general control-plane rule set opens, and to
    whom: etcd's 2379-2380 to the control plane's own group only, and 179,
    4240 and 10250 to its own and to the worker group, nothing else.  So a
    group other than the control plane's own never reaches etcd. *)
Theorem control_plane_tcp_ports (self peer group : string) (port : Z) :
  (open_to (GetSGControlPlaneGeneral self peer) group "tcp" port
   ↔ (group = self ∧ (2379 ≤ port ≤ 2380)%Z)
     ∨ ((group = self ∨ group = peer)
        ∧ (port = 179 ∨ port = 4240 ∨ port = 10250)))
  ∧ (group ≠ self → (2379 ≤ port ≤ 2380)%Z →
     ¬ open_to (GetSGControlPlaneGeneral self peer) group "tcp" port).
Proof.
  assert (Hopen : open_to (GetSGControlPlaneGeneral self peer) group "tcp" port
                  → (group = self ∧ (2379 ≤ port ≤ 2380)%Z)
                    ∨ ((group = self ∨ group = peer)
                       ∧ (port = 179 ∨ port = 4240 ∨ port = 10250))).
  { unfold open_to, covers. general_rules. intros H.
    opened_rule H; first [left; split; [done|lia] | right; split; [auto|lia]]. }
  split; [split; [exact Hopen|] |].
  - unfold open_to, covers. general_rules.
    intros [[-> Hp]|[[-> | ->] [-> | [-> | ->]]]]; find_rule.
  - intros Hne Hport Ho. destruct (Hopen Ho) as [[? _]|[_ ?]]; [done|lia].
Qed.

Lemma control_plane_tcp_ports_witness :
  ¬ open_to (GetSGControlPlaneGeneral "sg-cp" "sg-worker") "sg-worker" "tcp" 2379.
Proof.
  apply (control_plane_tcp_ports "sg-cp" "sg-worker" "sg-worker" 2379); [done|lia].
Defined.

(** X2: the TCP ports that the general worker rule set opens are 179, 4240
    and 10250, each to the workers' own and to the control-plane group; the
    UDP port that either general rule set opens is 8472, to both groups. *)
Theorem worker_tcp_and_udp_ports (self peer group : string) (port : Z) :
  (open_to (GetSGWorkerGeneral self peer) group "tcp" port
   ↔ (group = self ∨ group = peer) ∧ (port = 179 ∨ port = 4240 ∨ port = 10250))
  ∧ (open_to (GetSGWorkerGeneral self peer) group "udp" port
     ↔ (group = self ∨ group = peer) ∧ port = 8472)
  ∧ (open_to (GetSGControlPlaneGeneral self peer) group "udp" port
     ↔ (group = self ∨ group = peer) ∧ port = 8472).
Proof.
  unfold open_to, covers. general_rules.
  split; [split | split; split].
  - intros H. opened_rule H; (split; [auto | lia]).
  - intros [[-> | ->] [-> | [-> | ->]]]; find_rule.
  - intros H. opened_rule H; (split; [auto | lia]).
  - intros [[-> | ->] ->]; find_rule.
  - intros H. opened_rule H; (split; [auto | lia]).
  - intros [[-> | ->] ->]; find_rule.
Qed.

Ltac find_source :=
  first [ apply Exists_cons_hd; reflexivity | apply Exists_cons_tl; find_source ].

Ltac each_rule :=
  repeat match goal with
         | |- Forall _ (_ :: _) => constructor
         | |- Forall _ [] => constructor
         end.

Ltac distinct_rules :=
  repeat match goal with
         | |- NoDup (_ :: _) => apply NoDup_cons; split
         | |- NoDup [] => apply NoDup_nil_2
         | |- _ ∉ _ :: _ => apply not_elem_of_cons; split
         | |- _ ∉ [] => apply not_elem_of_nil
         | |- _ ≠ _ => intros [=]; congruence
         end.

(** X3: a general rule set holds no rule twice exactly when the two group
    identifiers differ; with equal identifiers (a rule set asked for with the
    same group as self and as peer) the rules for the peer repeat those for
    the group itself.  The same holds of the allow-all rule sets. *)
Theorem general_rules_distinct_iff (self peer : string) :
  (NoDup (GetSGControlPlaneGeneral self peer) ↔ self ≠ peer)
  ∧ (NoDup (GetSGWorkerGeneral self peer) ↔ self ≠ peer)
  ∧ (NoDup (GetSGControlPlaneAllowAll self peer) ↔ self ≠ peer)
  ∧ (NoDup (GetSGWorkerAllowAll self peer) ↔ self ≠ peer).
Proof.
  general_rules. split; [|split; [|split]]; (split; [|intros Hne; by distinct_rules]).
  - intros Hnodup ->.
    apply NoDup_cons in Hnodup as [_ Hnodup].
    apply NoDup_cons in Hnodup as [Hnotin _].
    apply Hnotin, elem_of_cons. by left.
  - intros Hnodup ->.
    apply NoDup_cons in Hnodup as [Hnotin _].
    apply Hnotin, elem_of_cons. by left.
  - intros Hnodup ->.
    apply NoDup_cons in Hnodup as [Hnotin _].
    apply Hnotin, elem_of_cons. by left.
  - intros Hnodup ->.
    apply NoDup_cons in Hnodup as [Hnotin _].
    apply Hnotin, elem_of_cons. by left.
Qed.

(** X4: where the rules let traffic in from.  Every rule of the general and
    of the allow-all rule sets names one of the two given groups as its
    source, and each of the two groups is named by some rule; every SSH rule
    names the bastion group; no rule of these names an address prefix.  The
    rules for the API and for node ports name no source at all: they are the
    only ones open to traffic from outside the cluster. *)
Theorem rule_sources (self peer bastion : string) :
  Forall (Forall (from_groups self peer))
    [ GetSGControlPlaneGeneral self peer; GetSGWorkerGeneral self peer;
      GetSGControlPlaneAllowAll self peer; GetSGWorkerAllowAll self peer ]
  ∧ Forall (λ rules, Exists (λ r, RemoteGroupID r = self) rules
                     ∧ Exists (λ r, RemoteGroupID r = peer) rules)
      [ GetSGControlPlaneGeneral self peer; GetSGWorkerGeneral self peer;
        GetSGControlPlaneAllowAll self peer; GetSGWorkerAllowAll self peer ]
  ∧ Forall (from_groups bastion bastion)
      (GetSGControlPlaneSSH bastion ++ GetSGWorkerSSH bastion)
  ∧ Forall any_source (GetSGControlPlaneHTTPS ++ GetSGWorkerNodePort).
Proof.
  unfold from_groups, any_source. general_rules. repeat apply conj.
  - each_rule; cbn; auto.
  - each_rule; (split; find_source).
  - each_rule; cbn; auto.
  - each_rule; cbn; auto.
Qed.

(** X5: the port fields of every rule of every generator fit the rule's
    protocol: a TCP or UDP rule has a proper interval within 1..65535, a rule
    for IP-in-IP or for any protocol has both fields 0, and no protocol other
    than these and ICMP occurs. *)
Theorem generators_ports_well_formed (a b : string) :
  Forall (Forall ports_well_formed) (generators a b).
Proof.
  unfold ports_well_formed, generators. general_rules.
  each_rule; cbn;
    first [ left; split; [auto|lia]
          | right; left; reflexivity
          | right; right; auto ].
Qed.

(** X6: for the same pair of identifiers, the general control-plane rule set
    is the general worker rule set with one rule put in front: etcd's ports
    2379-2380 over TCP from the control plane's own group. *)
Theorem control_plane_is_worker_plus_etcd (self peer : string) :
  ∃ etcd,
    GetSGControlPlaneGeneral self peer = etcd :: GetSGWorkerGeneral self peer
    ∧ Protocol etcd = "tcp" ∧ PortRangeMin etcd = 2379 ∧ PortRangeMax etcd = 2380
    ∧ RemoteGroupID etcd = self ∧ ingress_ipv4 etcd.
Proof.
  eexists. split; [reflexivity|]. cbn. repeat split.
Qed.

(** X7: exchanging the two identifiers only reorders the general worker rule
    set and the allow-all rule sets: workers treat their own group and the
    control-plane group alike.  The general control-plane rule set is
    reordered by the exchange only when the identifiers are equal, since etcd
    is opened to one of them only. *)
Theorem exchange_of_groups (a b : string) :
  GetSGWorkerGeneral a b ≡ₚ GetSGWorkerGeneral b a
  ∧ GetSGControlPlaneAllowAll a b ≡ₚ GetSGControlPlaneAllowAll b a
  ∧ GetSGWorkerAllowAll a b ≡ₚ GetSGWorkerAllowAll b a
  ∧ (GetSGControlPlaneGeneral a b ≡ₚ GetSGControlPlaneGeneral b a ↔ a = b).
Proof.
  general_rules. repeat apply conj.
  - repeat (etrans; [apply Permutation_swap|]; do 2 f_equiv).
  - apply Permutation_swap.
  - apply Permutation_swap.
  - intros Hperm.
    assert (Hin : {| Description := "Etcd"; Direction := "ingress"; EtherType := "IPv4";
                     PortRangeMin := 2379; PortRangeMax := 2380; Protocol := "tcp";
                     RemoteGroupID := a; RemoteIPPrefix := "" |}
                  ∈ GetSGControlPlaneGeneral b a).
    { general_rules. rewrite <- Hperm. apply elem_of_cons. by left. }
    revert Hin. general_rules. rewrite !elem_of_cons, elem_of_nil.
    intros Hin. repeat (destruct Hin as [Hin|Hin]; [by inversion Hin|]). done.
  - by intros ->.
Qed.

End RuleSetProperties.

(** * Further properties of [GetAvailabilityZones] and of the test server *)

Section ResultProperties.

Import AvailabilityZones.

Context {AvailabilityZone : Type}.

Lemma substring_all (s : string) : String.substring 0 (String.length s) s = s.
Proof. induction s as [|c s IH]; [done|]. cbn. by rewrite IH. Qed.

Lemma substring_after (p s : string) :
  String.substring (String.length p)
                   (String.length (p +:+ s) - String.length p)%nat (p +:+ s) = s.
Proof.
  induction p as [|c p IH].
  - change ("" +:+ s) with s. cbn. rewrite Nat.sub_0_r. apply substring_all.
  - change (String c p +:+ s) with (String c (p +:+ s)). cbn. apply IH.
Qed.

Lemma after_context_Errorf_v (err : error) :
  after_context (Errorf_v context err) = Error err.
Proof. unfold after_context, Errorf_v. cbn [Error]. apply substring_after. Qed.

(** X8: [GetAvailabilityZones] never hands back a list together with an
    error: its error is nil exactly when the SDK's is, with an error the list
    is nil even if the SDK gave one, and without an error the list is the
    SDK's. *)
Theorem GetAvailabilityZones_list_or_error (responses : nat → sdkResult AvailabilityZone) :
  (snd (fst (run GetAvailabilityZones responses 0)) = None
   ↔ snd (responses 0%nat) = None)
  ∧ (snd (fst (run GetAvailabilityZones responses 0)) ≠ None
     → fst (fst (run GetAvailabilityZones responses 0)) = None)
  ∧ (snd (fst (run GetAvailabilityZones responses 0)) = None
     → fst (fst (run GetAvailabilityZones responses 0)) = fst (responses 0%nat)).
Proof.
  cbn. destruct (responses 0%nat) as [zones [err|]]; cbn; by repeat split.
Qed.

(** X9: the error of a failed [GetAvailabilityZones] keeps the SDK error's
    message whole: what follows the fixed context in its message is the SDK's
    message, whatever that message is, so two failures are reported alike only
    when the SDK's messages are the same. *)
Theorem GetAvailabilityZones_keeps_message
    (responses : nat → sdkResult AvailabilityZone) (zones : slice AvailabilityZone)
    (sdkErr : error) :
  responses 0%nat = (zones, Some sdkErr) →
  ∃ err, snd (fst (run GetAvailabilityZones responses 0)) = Some err
         ∧ after_context err = Error sdkErr
         ∧ ∀ sdkErr', err = Errorf_v context sdkErr' → sdkErr' = sdkErr.
Proof.
  intros Hfirst. cbn. rewrite Hfirst. cbn.
  eexists. split; [reflexivity|]. split.
  - apply after_context_Errorf_v.
  - intros [msg'] Heq. destruct sdkErr as [msg].
    apply (f_equal after_context) in Heq.
    change (after_context (Errorf_v context (errorString msg))
            = after_context (Errorf_v context (errorString msg'))) in Heq.
    rewrite !after_context_Errorf_v in Heq. cbn in Heq. by subst.
Qed.

End ResultProperties.

Lemma GetAvailabilityZones_keeps_message_witness :
  ∃ err,
    snd (fst (AvailabilityZones.run AvailabilityZones.GetAvailabilityZones
                (λ _, (Some ["nova"],
                       Some (AvailabilityZones.errorString
                               "error extracting availability zone list: timeout")))
                0))
    = Some err
    ∧ AvailabilityZones.after_context err
      = "error extracting availability zone list: timeout".
Proof.
  destruct (GetAvailabilityZones_keeps_message
              (λ _, (Some ["nova"],
                     Some (AvailabilityZones.errorString
                             "error extracting availability zone list: timeout")))
              (Some ["nova"])
              (AvailabilityZones.errorString
                 "error extracting availability zone list: timeout")
              eq_refl) as (err & Herr & Hmsg & _).
  exists err. by split.
Defined.

Section TestServerProperties.

Import NetworkStatus.

(** X10: [serverWithAddresses] copies the address map it is given: in
    whatever order its loop goes through the map, the server's map has the
    same networks with the same address lists, so any two orders build the
    same server. *)
Theorem serverWithAddresses_copies
    (m : gmap string (list networkAddress))
    (order order' : list (string * list networkAddress)) :
  range_of m order → range_of m order' →
  Addresses_ (serverWithAddresses order) = m
  ∧ (∀ network, Addresses_ (serverWithAddresses order) !! network = m !! network)
  ∧ serverWithAddresses order = serverWithAddresses order'.
Proof.
  intros Hr Hr'.
  pose proof (serverWithAddresses_range m order Hr) as Hm.
  pose proof (serverWithAddresses_range m order' Hr') as Hm'.
  split; [done|]. split; [by rewrite Hm|].
  destruct (serverWithAddresses order), (serverWithAddresses order').
  cbn in *. by subst.
Qed.

End TestServerProperties.

Lemma serverWithAddresses_copies_witness :
  NetworkStatus.serverWithAddresses NetworkStatus.multiple_networks
  = NetworkStatus.serverWithAddresses (reverse NetworkStatus.multiple_networks).
Proof.
  apply (serverWithAddresses_copies (list_to_map NetworkStatus.multiple_networks)
           NetworkStatus.multiple_networks (reverse NetworkStatus.multiple_networks)).
  - unfold NetworkStatus.range_of. compute_done.
  - unfold NetworkStatus.range_of. compute_done.
Defined.
